(** * dope247: a chat bot that downloads a video and sends it back

    Verification of [dope247.py].  The bot is glue around three black
    boxes (the extraction engine, the transcoding binary and the chat
    transport); what is its own is the per-user admission gate
    ([active_downloads]), the URL allow-list, and the control flow of
    one request: [try]/[except]/[finally] and two [with] blocks.

    The handlers are embedded as trees of effects ([prog]): every call
    that leaves the handler (a reply, the engine, the file system, the
    logger) and every access to [self.active_downloads] is a node, and
    Python's exception constructs are combinators on such trees.  The
    trees are run against a world whose external part is arbitrary. *)

From Stdlib Require Import String Ascii NArith ZArith Lia.
From stdpp Require Import base decidable option list strings gmap.

Local Open Scope N_scope.

(* ===================================================================== *)
(** ** Python [str]                                                       *)
(* ===================================================================== *)

(** A Python [str] is a sequence of Unicode code points; slicing, prefix
    and substring tests all count code points. *)
Abbreviation str := (list N).

Module Py.

(** An ASCII literal of the source, as code points. *)
Fixpoint lit (s : string) : str :=
  match s with
  | EmptyString => []
  | String a s' => N_of_ascii a :: lit s'
  end.

(** [s.startswith(pre)] *)
Fixpoint startswith (pre s : str) : bool :=
  match pre, s with
  | [], _ => true
  | _ :: _, [] => false
  | a :: pre', b :: s' => (a =? b) && startswith pre' s'
  end.

(** [pat in s] for two [str]: some position of [s] starts with [pat]. *)
Fixpoint contains (pat s : str) : bool :=
  startswith pat s ||
  match s with
  | [] => false
  | _ :: s' => contains pat s'
  end.

(** [c.isspace()]: the code points [str.strip()] removes. *)
Definition isspace (c : N) : bool :=
  ((9 <=? c) && (c <=? 13)) || ((28 <=? c) && (c <=? 32)) ||
  (c =? 133) || (c =? 160) || (c =? 5760) ||
  ((8192 <=? c) && (c <=? 8202)) ||
  (c =? 8232) || (c =? 8233) || (c =? 8239) || (c =? 8287) || (c =? 12288).

Fixpoint lstrip (s : str) : str :=
  match s with
  | c :: s' => if isspace c then lstrip s' else s
  | [] => []
  end.

(** [s.strip()] *)
Definition strip (s : str) : str := reverse (lstrip (reverse (lstrip s))).

(** [s.rsplit(".", 1)[0]]: what precedes the last dot, the whole of
    [s] when it has none.  [rev_s] is [s] read backwards. *)
Fixpoint after_first_dot (rev_s : str) : option str :=
  match rev_s with
  | [] => None
  | c :: r => if c =? 46 then Some r else after_first_dot r
  end.

Definition rsplit_dot_head (s : str) : str :=
  match after_first_dot (reverse s) with
  | Some r => reverse r
  | None => s
  end.

(** [os.path.join(d, name)] (posixpath): an absolute [name] wins, a
    separator is added unless [d] is empty or ends with one. *)
Definition path_join (d name : str) : str :=
  match name with
  | 47 :: _ => name
  | _ => match last d with
         | Some 47 | None => d ++ name
         | Some _ => d ++ 47 :: name
         end
  end.

End Py.

(* ===================================================================== *)
(** ** Module constants and the URL validator                             *)
(* ===================================================================== *)

Definition MAX_FILE_SIZE : N := 50 * 1024 * 1024.

Definition SUPPORTED_DOMAINS : list str :=
  [ Py.lit "vimeo.com"; Py.lit "instagram.com"; Py.lit "tiktok.com";
    Py.lit "dailymotion.com"; Py.lit "facebook.com"; Py.lit "xvideos.com" ].

(** [text.startswith(('http://', 'https://')) and
     any(domain in text for domain in SUPPORTED_DOMAINS)] *)
Definition _is_valid_url (text : str) : bool :=
  existsb (fun pre => Py.startswith pre text) [Py.lit "http://"; Py.lit "https://"]
  && existsb (fun domain => Py.contains domain text) SUPPORTED_DOMAINS.

(* ===================================================================== *)
(** ** Exceptions                                                         *)
(* ===================================================================== *)

(** The classes the handlers tell apart.  [BaseOnly] stands for the
    classes derived from [BaseException] but not from [Exception]
    ([asyncio.CancelledError], [KeyboardInterrupt], [SystemExit]): an
    [except Exception] clause lets them through, [finally] and [with]
    still run for them. *)
Inductive exn_class :=
| DownloadError                   (* yt_dlp.utils.DownloadError *)
| ValueError
| OtherException (name : string)  (* OSError, CalledProcessError, TelegramError, ... *)
| BaseOnly (name : string).

(** An exception object: its class and [str(e)]. *)
Record exn := Exn { exn_cls : exn_class; exn_str : str }.

Definition isinstance_Exception (e : exn) : bool :=
  match exn_cls e with BaseOnly _ => false | _ => true end.

Definition isinstance_DownloadError (e : exn) : bool :=
  match exn_cls e with DownloadError => true | _ => false end.

(** How a call ends. *)
Inductive result (A : Type) : Type :=
| Return (a : A)
| Raise (e : exn).
Arguments Return {A} a.
Arguments Raise {A} e.

(* ===================================================================== *)
(** ** Effects                                                            *)
(* ===================================================================== *)

(** The options dict handed to [yt_dlp.YoutubeDL]. *)
Record ydl_opts := {
  opt_outtmpl : str;
  opt_format : str;
  opt_merge_output_format : str;
  opt_quiet : bool;
  opt_no_warnings : bool
}.

(** The info dict of the engine, with its values as [str]. *)
Abbreviation info_dict := (gmap string str).

(** Everything a handler does besides computing.  The first three are
    the accesses to [self.active_downloads]; the others leave the
    handler.  [ReplyText] and [SendVideo] are the two awaited calls.
    Three of them cannot fail: the cleanup of the temporary directory
    and the closing of a file are taken to succeed, and [logging] keeps
    the errors of its handlers to itself. *)
Inductive event :=
| Member (user_id : Z)                       (* user_id in self.active_downloads *)
| Add (user_id : Z)                          (* self.active_downloads.add(user_id) *)
| Discard (user_id : Z)                      (* self.active_downloads.discard(user_id) *)
| ReplyText (chat_id : Z) (text : str)       (* await update.message.reply_text(text) *)
| SendVideo (chat_id : Z) (video : str) (caption : str) (supports_streaming : bool)
| Mkdtemp                                    (* tempfile.TemporaryDirectory() *)
| Rmtree (d : str)                           (* TemporaryDirectory.cleanup() *)
| ExtractInfo (url : str) (opts : ydl_opts)  (* ydl.extract_info(url, download=True) *)
| PrepareFilename (opts : ydl_opts) (info : info_dict)
| Exists (p : str)                           (* os.path.exists(p) *)
| Getsize (p : str)                          (* os.path.getsize(p) *)
| Run (cmd : list str)                       (* subprocess.run(cmd, check=True) *)
| Open (p : str)                             (* open(p, 'rb') *)
| Close (p : str)
| LogError (msg : str).                      (* logger.error(msg) *)

(** What the handler gets back from each. *)
Definition resp (ev : event) : Type :=
  match ev with
  | Member _ | Exists _ => bool
  | Add _ | Discard _ | Rmtree _ | Close _ | LogError _ => unit
  | ReplyText _ _ | SendVideo _ _ _ _ | Run _ | Open _ => result unit
  | Mkdtemp | PrepareFilename _ _ => result str
  | ExtractInfo _ _ => result info_dict
  | Getsize _ => result N
  end.

(** A handler body: it returns, raises, or performs an effect and goes
    on with the answer. *)
Inductive prog (A : Type) : Type :=
| Ret (a : A)
| Throw (e : exn)
| Vis (ev : event) (k : resp ev -> prog A).
Arguments Ret {A} a.
Arguments Throw {A} e.
Arguments Vis {A} ev k.

Fixpoint bind {A B} (f : A -> prog B) (p : prog A) : prog B :=
  match p with
  | Ret a => f a
  | Throw e => Throw e
  | Vis ev k => Vis ev (fun r => bind f (k r))
  end.

#[global] Instance prog_ret : MRet prog := @Ret.
#[global] Instance prog_bind : MBind prog := @bind.

(** [try: p  except <any> as e: h e]; a clause for one class is an [h]
    that raises the others again. *)
Fixpoint try_except {A} (p : prog A) (h : exn -> prog A) : prog A :=
  match p with
  | Ret a => Ret a
  | Throw e => h e
  | Vis ev k => Vis ev (fun r => try_except (k r) h)
  end.

(** [try: p  finally: f].  [f] runs however [p] ends; an exception of
    [f] replaces the outcome of [p]. *)
Fixpoint try_finally {A} (p : prog A) (f : prog unit) : prog A :=
  match p with
  | Ret a => bind (fun _ => Ret a) f
  | Throw e => bind (fun _ => Throw e) f
  | Vis ev k => Vis ev (fun r => try_finally (k r) f)
  end.

(** The outcome of a call, back in the handler. *)
Definition lift {A} (r : result A) : prog A :=
  match r with
  | Return a => Ret a
  | Raise e => Throw e
  end.

Definition perform (ev : event) : prog (resp ev) := Vis ev Ret.

(** The calls of the source, typed. *)
Definition reply_text (chat_id : Z) (text : str) : prog unit :=
  Vis (ReplyText chat_id text) lift.
Definition send_video (chat_id : Z) (video caption : str) (streaming : bool) : prog unit :=
  Vis (SendVideo chat_id video caption streaming) lift.
Definition extract_info (url : str) (opts : ydl_opts) : prog info_dict :=
  Vis (ExtractInfo url opts) lift.
Definition prepare_filename (opts : ydl_opts) (info : info_dict) : prog str :=
  Vis (PrepareFilename opts info) lift.
Definition getsize (p : str) : prog N := Vis (Getsize p) lift.
Definition subprocess_run (cmd : list str) : prog unit := Vis (Run cmd) lift.
Definition path_exists (p : str) : prog bool := perform (Exists p).
Definition logger_error (msg : str) : prog unit := perform (LogError msg).
Definition member (user_id : Z) : prog bool := perform (Member user_id).
Definition add (user_id : Z) : prog unit := perform (Add user_id).
Definition discard (user_id : Z) : prog unit := perform (Discard user_id).

(** [with tempfile.TemporaryDirectory() as temp_dir: body]: the
    directory is made on entry and [cleanup()] runs on every exit. *)
Definition with_TemporaryDirectory {A} (body : str -> prog A) : prog A :=
  temp_dir ← Vis Mkdtemp lift;
  try_finally (body temp_dir) (perform (Rmtree temp_dir)).

(** [with open(p, 'rb') as f: body]: closed on every exit. *)
Definition with_open {A} (p : str) (body : str -> prog A) : prog A :=
  Vis (Open p) lift;;
  try_finally (body p) (perform (Close p)).

(* ===================================================================== *)
(** ** The handlers                                                       *)
(* ===================================================================== *)

(** What a handler reads from the [Update] of a text message. *)
Record Update := {
  effective_user_id : Z;
  effective_chat_id : Z;
  message_text : str
}.

Definition busy_msg : str :=
  9203 :: Py.lit " Please wait, still working on your previous download...".
Definition invalid_msg : str :=
  9888 :: 65039 :: Py.lit " Please send a valid URL from supported sites.".
Definition downloading_msg : str :=
  11015 :: 65039 :: Py.lit " Downloading your video, please wait...".
(** [f"❌ Error: {e}"] *)
Definition error_msg (e : exn) : str := 10060 :: Py.lit " Error: " ++ exn_str e.

Definition too_large : exn :=
  Exn ValueError (Py.lit "Even after compression, the video is too large.").
Definition download_failed : exn :=
  Exn ValueError (Py.lit "Failed to download. URL might be invalid.").

(** [with yt_dlp.YoutubeDL(ydl_opts) as ydl] is taken to do nothing on
    entry and on exit; what the constructor could raise, [extract_info]
    can raise as well. *)
Definition _download_video (url temp_dir : str) : prog (str * str) :=
  let ydl_opts :=
    {| opt_outtmpl := Py.path_join temp_dir (Py.lit "%(title)s.%(ext)s");
       opt_format := Py.lit "bestvideo[height<=720]+bestaudio/best[height<=720]";
       opt_merge_output_format := Py.lit "mp4";
       opt_quiet := true;
       opt_no_warnings := true |} in
  info_dict ← extract_info url ydl_opts;
  file_path ← prepare_filename ydl_opts info_dict;
  found ← path_exists file_path;
  let file_path :=
    if found : bool then file_path
    else Py.rsplit_dot_head file_path ++ Py.lit ".mp4" in
  Ret (default (Py.lit "video") (info_dict !! "title"%string), file_path).

Definition _compress_video (input_path output_path : str) : prog unit :=
  let cmd :=
    [ Py.lit "ffmpeg"; Py.lit "-i"; input_path;
      Py.lit "-vf"; Py.lit "scale=-2:720";
      Py.lit "-c:v"; Py.lit "libx264"; Py.lit "-preset"; Py.lit "fast";
      Py.lit "-crf"; Py.lit "28";
      Py.lit "-c:a"; Py.lit "aac"; Py.lit "-b:a"; Py.lit "96k";
      Py.lit "-movflags"; Py.lit "+faststart";
      output_path ] in
  subprocess_run cmd.

Definition _send_video (chat_id : Z) (file_path caption : str) : prog unit :=
  try_except
    (with_open file_path (fun video_file =>
       send_video chat_id video_file (take 1024 caption) true))
    (fun e =>
       if isinstance_Exception e
       then logger_error (Py.lit "Send failed: " ++ exn_str e)
       else Throw e).

Definition _process_video (update : Update) (url : str) (chat_id : Z) : prog unit :=
  with_TemporaryDirectory (fun temp_dir =>
    try_except
      ('(title, file_path) ← _download_video url temp_dir;
       file_size ← getsize file_path;
       '(file_path, file_size) ←
         (if MAX_FILE_SIZE <? file_size then
            let compressed_path := Py.path_join temp_dir (Py.lit "compressed.mp4") in
            _compress_video file_path compressed_path;;
            let file_path := compressed_path in
            file_size ← getsize file_path;
            if MAX_FILE_SIZE <? file_size then Throw too_large
            else Ret (file_path, file_size)
          else Ret (file_path, file_size));
       _send_video chat_id file_path title)
      (fun e =>
         if isinstance_DownloadError e then Throw download_failed else Throw e)).

Definition handle_message (update : Update) : prog unit :=
  let user_id := effective_user_id update in
  let chat_id := effective_chat_id update in
  let text := Py.strip (message_text update) in
  busy ← member user_id;
  if busy : bool then reply_text chat_id busy_msg
  else if negb (_is_valid_url text) then reply_text chat_id invalid_msg
  else
    add user_id;;
    try_finally
      (try_except
         (reply_text chat_id downloading_msg;;
          _process_video update text chat_id)
         (fun e =>
            if isinstance_Exception e then
              logger_error (Py.lit "Download error: " ++ exn_str e);;
              reply_text chat_id (error_msg e)
            else Throw e))
      (discard user_id).

(** Parts of the two functions above taken alone, for the lemmas to
    name: the body of the [try] in [_process_video], that [try] with its
    [except] (what the [with] encloses), and the [try ... except] of
    [handle_message] (what its [finally] encloses). *)
Definition try_block (url : str) (chat_id : Z) (temp_dir : str) : prog unit :=
  '(title, file_path) ← _download_video url temp_dir;
  file_size ← getsize file_path;
  '(file_path, file_size) ←
    (if MAX_FILE_SIZE <? file_size then
       let compressed_path := Py.path_join temp_dir (Py.lit "compressed.mp4") in
       _compress_video file_path compressed_path;;
       let file_path := compressed_path in
       file_size ← getsize file_path;
       if MAX_FILE_SIZE <? file_size then Throw too_large
       else Ret (file_path, file_size)
     else Ret (file_path, file_size));
  _send_video chat_id file_path title.

Definition in_temp_dir (url : str) (chat_id : Z) (temp_dir : str) : prog unit :=
  try_except (try_block url chat_id temp_dir)
    (fun e =>
       if isinstance_DownloadError e then Throw download_failed else Throw e).

(** What still runs once the body of the inner [try] has ended with
    [r]: the two [except] clauses, the cleanup and the discard. *)
Definition wrap_up (update : Update) (temp_dir : str) (r : result unit) : prog unit :=
  try_finally
    (try_except
       (try_finally
          (try_except (lift r)
             (fun e =>
                if isinstance_DownloadError e then Throw download_failed else Throw e))
          (perform (Rmtree temp_dir)))
       (fun e =>
          if isinstance_Exception e then
            logger_error (Py.lit "Download error: " ++ exn_str e);;
            reply_text (effective_chat_id update) (error_msg e)
          else Throw e))
    (discard (effective_user_id update)).

Definition lifecycle (update : Update) : prog unit :=
  try_except
    (reply_text (effective_chat_id update) downloading_msg;;
     _process_video update (Py.strip (message_text update))
       (effective_chat_id update))
    (fun e =>
       if isinstance_Exception e then
         logger_error (Py.lit "Download error: " ++ exn_str e);;
         reply_text (effective_chat_id update) (error_msg e)
       else Throw e).

(* ===================================================================== *)
(** ** The update as the dispatcher passes it                             *)
(* ===================================================================== *)

(** The attributes of an update that [handle_message] reads, as the
    library types them: [effective_user] is [None] for a channel post,
    [message] is [None] for every update that is not a new message (an
    edited message, a channel post), and [text] is [None] for a message
    without text.  The filter of [main] looks at the effective message
    and not at [message], so such updates do reach the handler. *)
Record TelegramUpdate := {
  effective_user : option Z;      (* [update.effective_user], by its [id] *)
  effective_chat : option Z;      (* [update.effective_chat], by its [id] *)
  message : option (option str)   (* [update.message], by its [text] *)
}.

(** What reading an attribute of [None] raises. *)
Definition no_attribute (name : string) : exn :=
  Exn (OtherException "AttributeError")
      (Py.lit "'NoneType' object has no attribute '" ++ Py.lit name ++ Py.lit "'").

(** The first three lines of [handle_message], up to the call of
    [strip]: they perform no effect, and the first attribute read on
    [None] ends the handler. *)
Definition read_update (u : TelegramUpdate) : result Update :=
  match effective_user u with
  | None => Raise (no_attribute "id")
  | Some user_id =>
      match effective_chat u with
      | None => Raise (no_attribute "id")
      | Some chat_id =>
          match message u with
          | None => Raise (no_attribute "text")
          | Some None => Raise (no_attribute "strip")
          | Some (Some text) =>
              Return {| effective_user_id := user_id;
                        effective_chat_id := chat_id;
                        message_text := text |}
          end
      end
  end.

(** [handle_message] on whatever update it is called with. *)
Definition handle_update (u : TelegramUpdate) : prog unit :=
  update ← lift (read_update u);
  handle_message update.

(** The update of a new text message of a user. *)
Definition text_message (update : Update) : TelegramUpdate :=
  {| effective_user := Some (effective_user_id update);
     effective_chat := Some (effective_chat_id update);
     message := Some (Some (message_text update)) |}.

(* ===================================================================== *)
(** ** The world a handler runs in                                        *)
(* ===================================================================== *)

(** The local file system: the paths that exist, with what [stat] gives. *)
Record node := { is_dir : bool; st_size : N }.
Abbreviation FS := (gmap str node).

(** [p] is the directory [d] or lies below it. *)
Definition inside (d p : str) : bool :=
  bool_decide (p = d) || Py.startswith (d ++ [47]) p.

(** [shutil.rmtree(d)], as [TemporaryDirectory.cleanup()] calls it. *)
Definition rmtree (d : str) (fs : FS) : FS :=
  filter (fun kv => inside d kv.1 = false) fs.

(** The collaborators, each an arbitrary function of a state [X] of
    their own (the network, the remote sites, the clock) and, for those
    that work on local files, of the file system.  The chat transport
    never writes to local files. *)
Record externals (X : Type) := {
  ext_reply_text : Z -> str -> X -> result unit * X;
  ext_send_video : Z -> str -> str -> bool -> X -> result unit * X;
  ext_mkdtemp : X * FS -> result str * (X * FS);
  ext_extract_info : str -> ydl_opts -> X * FS -> result info_dict * (X * FS);
  ext_prepare_filename : ydl_opts -> info_dict -> result str;
  ext_subprocess_run : list str -> X * FS -> result unit * (X * FS);
  (** the text of an [OSError], from its errno and path *)
  ext_strerror : N -> str -> str
}.
Arguments ext_reply_text {X} _ _ _ _.
Arguments ext_send_video {X} _ _ _ _ _ _.
Arguments ext_mkdtemp {X} _ _.
Arguments ext_extract_info {X} _ _ _ _.
Arguments ext_prepare_filename {X} _ _ _.
Arguments ext_subprocess_run {X} _ _ _.
Arguments ext_strerror {X} _ _ _.

Record World (X : Type) := {
  active_downloads : gset Z;   (* self.active_downloads *)
  files : FS;
  net : X
}.
Arguments active_downloads {X} _.
Arguments files {X} _.
Arguments net {X} _.

Section Semantics.
Context {X : Type} (E : externals X).

Definition set_active (s : gset Z) (w : World X) : World X :=
  {| active_downloads := s; files := files w; net := net w |}.
Definition set_net (x : X) (w : World X) : World X :=
  {| active_downloads := active_downloads w; files := files w; net := x |}.
Definition set_outside (o : X * FS) (w : World X) : World X :=
  {| active_downloads := active_downloads w; files := o.2; net := o.1 |}.
Definition set_files (fs : FS) (w : World X) : World X :=
  {| active_downloads := active_downloads w; files := fs; net := net w |}.

Definition FileNotFoundError (p : str) : exn :=
  Exn (OtherException "FileNotFoundError") (ext_strerror E 2 p).
Definition IsADirectoryError (p : str) : exn :=
  Exn (OtherException "IsADirectoryError") (ext_strerror E 21 p).

(** One effect: the answer and the world after it. *)
Definition handle (ev : event) (w : World X) : resp ev * World X :=
  match ev return resp ev * World X with
  | Member u => (bool_decide (u ∈ active_downloads w), w)
  | Add u => (tt, set_active ({[u]} ∪ active_downloads w) w)
  | Discard u => (tt, set_active (active_downloads w ∖ {[u]}) w)
  | ReplyText c text =>
      let '(r, x) := ext_reply_text E c text (net w) in (r, set_net x w)
  | SendVideo c video caption streaming =>
      let '(r, x) := ext_send_video E c video caption streaming (net w) in
      (r, set_net x w)
  | Mkdtemp =>
      let '(r, o) := ext_mkdtemp E (net w, files w) in (r, set_outside o w)
  | Rmtree d => (tt, set_files (rmtree d (files w)) w)
  | ExtractInfo url opts =>
      let '(r, o) := ext_extract_info E url opts (net w, files w) in
      (r, set_outside o w)
  | PrepareFilename opts info => (ext_prepare_filename E opts info, w)
  | Exists p => (bool_decide (is_Some (files w !! p)), w)
  | Getsize p =>
      (match files w !! p with
       | Some n => Return (st_size n)
       | None => Raise (FileNotFoundError p)
       end, w)
  | Run cmd =>
      let '(r, o) := ext_subprocess_run E cmd (net w, files w) in
      (r, set_outside o w)
  | Open p =>
      (match files w !! p with
       | Some n => if is_dir n then Raise (IsADirectoryError p) else Return tt
       | None => Raise (FileNotFoundError p)
       end, w)
  | Close _ => (tt, w)
  | LogError _ => (tt, w)
  end.

(** A handler run on its own from start to end, no other handler
    running while it waits: how it ends, the world it leaves, and the
    effects it performed, in order. *)
Fixpoint interp {A} (p : prog A) (w : World X) : result A * World X * list event :=
  match p with
  | Ret a => (Return a, w, [])
  | Throw e => (Raise e, w, [])
  | Vis ev k =>
      let '(r, w1) := handle ev w in
      let '(res, w2, t) := interp (k r) w1 in
      (res, w2, ev :: t)
  end.

Definition outcome {A} (p : prog A) (w : World X) : result A := (interp p w).1.1.
Definition after {A} (p : prog A) (w : World X) : World X := (interp p w).1.2.
Definition events {A} (p : prog A) (w : World X) : list event := (interp p w).2.

End Semantics.

(* ===================================================================== *)
(** ** Handlers run concurrently                                          *)
(* ===================================================================== *)

(** The handlers are coroutines on one event loop: a handler runs
    undisturbed from one [await] to the next, and other handlers may run
    while it waits.  [extract_info] and [subprocess.run] are called
    without [await], so they are no suspension points. *)
Definition is_await (ev : event) : bool :=
  match ev with
  | ReplyText _ _ | SendVideo _ _ _ _ => true
  | _ => false
  end.

Definition is_gate (ev : event) : bool :=
  match ev with
  | Member _ | Add _ | Discard _ => true
  | _ => false
  end.

(** The first effects of the adapters tell that they were invoked:
    [_compress_video] starts the transcoder, [_send_video] opens the
    file and hands it to the transport. *)
Definition is_compression (ev : event) : bool :=
  match ev with
  | Run _ => true
  | _ => false
  end.

Definition is_delivery (ev : event) : bool :=
  match ev with
  | Open _ | SendVideo _ _ _ _ | Close _ => true
  | _ => false
  end.

Definition is_extraction (ev : event) : bool :=
  match ev with
  | ExtractInfo _ _ | PrepareFilename _ _ | Exists _ => true
  | _ => false
  end.

(** The request has failed for the user when the [except] of
    [handle_message] runs: it logs "Download error: ..." and replies
    with [error_msg], whose first code point no other reply has. *)
Definition is_error_reply (ev : event) : bool :=
  match ev with
  | ReplyText _ (10060 :: _) => true
  | _ => false
  end.

Definition is_failure_log (ev : event) : bool :=
  match ev with
  | LogError msg => Py.startswith (Py.lit "Download error: ") msg
  | _ => false
  end.

(** What the transport is given as the caption, if [ev] is a send. *)
Definition sends_caption (caption : str) (ev : event) : Prop :=
  match ev with
  | SendVideo _ _ c _ => c = caption
  | _ => True
  end.

(** Some reply of the trace contains [cause]. *)
Definition cause_surfaced (cause : str) (t : list event) : bool :=
  existsb (fun ev =>
             match ev with
             | ReplyText _ text => Py.contains cause text
             | _ => false
             end) t.

(** A handler that no longer touches [self.active_downloads]. *)
Fixpoint gate_free {A} (p : prog A) : Prop :=
  match p with
  | Ret _ | Throw _ => True
  | Vis ev k => is_gate ev = false /\ forall r, gate_free (k r)
  end.

Definition suspended {A} (p : prog A) : Prop :=
  match p with
  | Vis ev _ => is_await ev = true
  | _ => False
  end.

Definition finished {A} (p : prog A) : Prop :=
  match p with
  | Vis _ _ => False
  | _ => True
  end.

(** A handler that waits inside the [try] of [handle_message] whose
    [finally] discards [user_id]: the request of that user in flight. *)
Definition in_flight (user_id : Z) (p : prog unit) : Prop :=
  suspended p /\ exists q, gate_free q /\ p = try_finally q (discard user_id).

Section Scheduler.
Context {X : Type} (E : externals X).

(** Run a handler up to its next awaited call, or to its end. *)
Fixpoint advance (p : prog unit) (w : World X) : prog unit * World X * list event :=
  match p with
  | Vis ev k =>
      if is_await ev then (p, w, [])
      else
        let '(r, w1) := handle E ev w in
        let '(p', w2, t) := advance (k r) w1 in
        (p', w2, ev :: t)
  | _ => (p, w, [])
  end.

(** A suspended handler goes on: its awaited call is performed, and it
    runs to the next one. *)
Definition resume (p : prog unit) (w : World X) : prog unit * World X * list event :=
  match p with
  | Vis ev k =>
      let '(r, w1) := handle E ev w in
      let '(p', w2, t) := advance (k r) w1 in
      (p', w2, ev :: t)
  | _ => (p, w, [])
  end.

(** The loop: the world, per message received so far what is left
    of its handler, and the effects performed so far, in order. *)
Record config := {
  world : World X;
  tasks : list (Update * prog unit);
  history : list event
}.

Inductive sched : config -> config -> Prop :=
| sched_arrive w ts h update p w' t :
    (* a message arrives and its handler runs to its first [await] *)
    advance (handle_message update) w = (p, w', t) ->
    sched {| world := w; tasks := ts; history := h |}
          {| world := w'; tasks := ts ++ [(update, p)]; history := h ++ t |}
| sched_resume w ts h i update p p' w' t :
    (* an awaited call completes and its handler goes on *)
    ts !! i = Some (update, p) ->
    suspended p ->
    resume p w = (p', w', t) ->
    sched {| world := w; tasks := ts; history := h |}
          {| world := w'; tasks := <[i := (update, p')]> ts; history := h ++ t |}.

(** What the loop can reach from a start with no request in flight. *)
Definition reachable (c : config) : Prop :=
  exists w0, active_downloads w0 = ∅ /\
    rtc sched {| world := w0; tasks := []; history := [] |} c.

(** The gate as a lock: every handler either is done with the set or is
    the request in flight of its user; a user is in the set exactly
    when a request of theirs is in flight; and no user has two. *)
Definition holds_gate (ts : list (Update * prog unit)) (i : nat) (user_id : Z) : Prop :=
  exists update p,
    ts !! i = Some (update, p) /\
    effective_user_id update = user_id /\ in_flight user_id p.

Definition gate_invariant (c : config) : Prop :=
  (forall i update p,
     tasks c !! i = Some (update, p) ->
     gate_free p \/ in_flight (effective_user_id update) p) /\
  (forall user_id,
     user_id ∈ active_downloads (world c) <-> exists i, holds_gate (tasks c) i user_id) /\
  (forall i j user_id,
     holds_gate (tasks c) i user_id -> holds_gate (tasks c) j user_id -> i = j).

End Scheduler.

(* ===================================================================== *)
(** ** A concrete world, for the examples                                 *)
(* ===================================================================== *)

Module Demo.

Definition tmp : str := Py.lit "/tmp/t".
Definition clip : str := Py.lit "/tmp/t/Test Clip.mp4".
Definition cause : str := Py.lit "ERROR: Unsupported URL".

(** An engine that fetches a clip of [size] bytes titled "Test Clip"
    (or fails when [size] is [None]), a transcoder that writes
    [csize] bytes, and a transport whose sends succeed or not. *)
Definition env (size : option N) (csize : N) (send_ok : bool) : externals unit := {|
  ext_reply_text := fun _ _ x => (Return tt, x);
  ext_send_video := fun _ _ _ _ x =>
    (if send_ok then Return tt
     else Raise (Exn (OtherException "TimedOut") (Py.lit "Timed out")), x);
  ext_mkdtemp := fun o => (Return tmp, (o.1, <[tmp := {| is_dir := true; st_size := 4096 |}]> o.2));
  ext_extract_info := fun _ _ o =>
    match size with
    | Some n =>
        (Return {[ "title"%string := Py.lit "Test Clip" ]},
         (o.1, <[clip := {| is_dir := false; st_size := n |}]> o.2))
    | None => (Raise (Exn DownloadError cause), o)
    end;
  ext_prepare_filename := fun _ _ => Return clip;
  ext_subprocess_run := fun cmd o =>
    (Return tt,
     (o.1, <[default [] (last cmd) := {| is_dir := false; st_size := csize |}]> o.2));
  ext_strerror := fun _ p => Py.lit "[Errno] " ++ p
|}.

Definition idle : World unit :=
  {| active_downloads := ∅; files := ∅; net := tt |}.

Definition busy (user_id : Z) : World unit :=
  {| active_downloads := {[user_id]}; files := ∅; net := tt |}.

Definition msg (text : string) : Update :=
  {| effective_user_id := 7; effective_chat_id := 70; message_text := Py.lit text |}.

Definition MiB : N := 1024 * 1024.

Definition vimeo : Update := msg "https://vimeo.com/12345".

(** The outside once the temporary directory is made, and the world
    in which the extraction adapter is then called. *)
Definition made : unit * FS :=
  (tt, {[ tmp := {| is_dir := true; st_size := 4096 |} ]}).

Definition started : World unit :=
  {| active_downloads := {[7%Z]} ∪ ∅; files := made.2; net := made.1 |}.

End Demo.

(* ===================================================================== *)
(** ** What the effects of a request are measured by                      *)
(* ===================================================================== *)

Definition is_reply (ev : event) : bool :=
  match ev with
  | ReplyText _ _ => true
  | _ => false
  end.

(** What goes out to a chat goes to [chat_id]. *)
Definition to_chat (chat_id : Z) (ev : event) : Prop :=
  match ev with
  | ReplyText c _ | SendVideo c _ _ _ => c = chat_id
  | _ => True
  end.

(** The engine and the transcoder are told to write below [d]: the
    output template of the one and the last argument of the other lie
    in [d]. *)
Definition writes_below (d : str) (ev : event) : Prop :=
  match ev with
  | ExtractInfo _ opts => inside d (opt_outtmpl opts) = true
  | Run cmd => exists out, last cmd = Some out /\ inside d out = true
  | _ => True
  end.

(** An effect of the body of the inner [try]: the engine, the file
    system, the transcoder, the transport's send and the send's log
    entry; no reply, no access to the set, no temporary directory made
    or removed. *)
Definition is_inner (ev : event) : bool :=
  match ev with
  | ExtractInfo _ _ | PrepareFilename _ _ | Exists _ | Getsize _ | Run _
  | Open _ | SendVideo _ _ _ _ | Close _ | LogError _ => true
  | _ => false
  end.

(** The same update with another text. *)
Definition with_text (update : Update) (text : str) : Update :=
  {| effective_user_id := effective_user_id update;
     effective_chat_id := effective_chat_id update;
     message_text := text |}.

(** Worlds in which something goes wrong, for the examples. *)
Module Faults.

Definition exit_status : exn :=
  Exn (OtherException "CalledProcessError")
      (Py.lit "Command 'ffmpeg' returned non-zero exit status 1.").

Definition cancelled : exn := Exn (BaseOnly "CancelledError") [].

Definition timed_out : exn := Exn (OtherException "TimedOut") (Py.lit "Timed out").

(** [Demo.env] with a transcoder that exits with status 1. *)
Definition no_transcoder (size : N) : externals unit := {|
  ext_reply_text := ext_reply_text (Demo.env (Some size) 0 true);
  ext_send_video := ext_send_video (Demo.env (Some size) 0 true);
  ext_mkdtemp := ext_mkdtemp (Demo.env (Some size) 0 true);
  ext_extract_info := ext_extract_info (Demo.env (Some size) 0 true);
  ext_prepare_filename := ext_prepare_filename (Demo.env (Some size) 0 true);
  ext_subprocess_run := fun _ o => (Raise exit_status, o);
  ext_strerror := ext_strerror (Demo.env (Some size) 0 true)
|}.

(** [Demo.env] with an engine during which the request is cancelled. *)
Definition cancelled_engine : externals unit := {|
  ext_reply_text := ext_reply_text (Demo.env None 0 true);
  ext_send_video := ext_send_video (Demo.env None 0 true);
  ext_mkdtemp := ext_mkdtemp (Demo.env None 0 true);
  ext_extract_info := fun _ _ o => (Raise cancelled, o);
  ext_prepare_filename := ext_prepare_filename (Demo.env None 0 true);
  ext_subprocess_run := ext_subprocess_run (Demo.env None 0 true);
  ext_strerror := ext_strerror (Demo.env None 0 true)
|}.

(** [Demo.env] with a transport whose replies fail with [e]. *)
Definition no_replies (e : exn) : externals unit := {|
  ext_reply_text := fun _ _ x => (Raise e, x);
  ext_send_video := ext_send_video (Demo.env None 0 true);
  ext_mkdtemp := ext_mkdtemp (Demo.env None 0 true);
  ext_extract_info := ext_extract_info (Demo.env None 0 true);
  ext_prepare_filename := ext_prepare_filename (Demo.env None 0 true);
  ext_subprocess_run := ext_subprocess_run (Demo.env None 0 true);
  ext_strerror := ext_strerror (Demo.env None 0 true)
|}.

(** An engine that reports "/tmp/t/Test Clip.webm" but leaves the
    merged "/tmp/t/Test Clip.mp4", and whose info dict has no title. *)
Definition merged (size : N) : externals unit := {|
  ext_reply_text := ext_reply_text (Demo.env (Some size) 0 true);
  ext_send_video := ext_send_video (Demo.env (Some size) 0 true);
  ext_mkdtemp := ext_mkdtemp (Demo.env (Some size) 0 true);
  ext_extract_info := fun _ _ o =>
    (Return ∅, (o.1, <[Demo.clip := {| is_dir := false; st_size := size |}]> o.2));
  ext_prepare_filename := fun _ _ => Return (Py.lit "/tmp/t/Test Clip.webm");
  ext_subprocess_run := ext_subprocess_run (Demo.env (Some size) 0 true);
  ext_strerror := ext_strerror (Demo.env (Some size) 0 true)
|}.

End Faults.

(** The options [_download_video] builds for [temp_dir]. *)
Definition ydl_opts_of (temp_dir : str) : ydl_opts :=
  {| opt_outtmpl := Py.path_join temp_dir (Py.lit "%(title)s.%(ext)s");
     opt_format := Py.lit "bestvideo[height<=720]+bestaudio/best[height<=720]";
     opt_merge_output_format := Py.lit "mp4";
     opt_quiet := true;
     opt_no_warnings := true |}.

Module Scenes.

(** An engine that reports "/tmp/t/Test Clip.mp4" and writes nothing. *)
Definition lost : externals unit := {|
  ext_reply_text := ext_reply_text (Demo.env None 0 true);
  ext_send_video := ext_send_video (Demo.env None 0 true);
  ext_mkdtemp := ext_mkdtemp (Demo.env None 0 true);
  ext_extract_info := fun _ _ o => (Return ∅, o);
  ext_prepare_filename := fun _ _ => Return Demo.clip;
  ext_subprocess_run := ext_subprocess_run (Demo.env None 0 true);
  ext_strerror := ext_strerror (Demo.env None 0 true)
|}.

(** A second user. *)
Definition other : Update :=
  {| effective_user_id := 8; effective_chat_id := 80;
     message_text := Py.lit "https://tiktok.com/@a/video/1" |}.

(** The loop after the first user's URL arrived: that request waits at
    its progress notice. *)
Definition one_in_flight : @config unit :=
  {| world := set_active ({[7%Z]} ∪ ∅) Demo.idle;
     tasks := [] ++ [(Demo.vimeo, try_finally (lifecycle Demo.vimeo) (discard 7))];
     history := [] ++ [Member 7; Add 7] |}.

(** The first user edits a message: the update has the user and the
    chat, its message is under [edited_message], and [message] is
    [None]. *)
Definition edited : TelegramUpdate :=
  {| effective_user := Some 7%Z; effective_chat := Some 70%Z; message := None |}.

(** A world in which the clip is there. *)
Definition fetched : World unit :=
  {| active_downloads := ∅;
     files := {[ Demo.clip := {| is_dir := false; st_size := 5 |} ]};
     net := tt |}.

End Scenes.

(* ===================================================================== *)
(** ** The URL validator                                                  *)
(* ===================================================================== *)

Lemma startswith_prefix (pre s : str) :
  Py.startswith pre s = true <-> pre `prefix_of` s.
Proof.
  revert s. induction pre as [|a pre IH]; intros [|b s]; simpl.
  - split; [intros _; apply prefix_nil | done].
  - split; [intros _; apply prefix_nil | done].
  - split; [done | intros [k Hk]; discriminate].
  - rewrite andb_true_iff, N.eqb_eq, IH. split.
    + intros [-> H]. by apply prefix_cons.
    + intros [k Hk]. injection Hk as -> ->. split; [done | by exists k].
Qed.

Lemma contains_infix (pat s : str) :
  Py.contains pat s = true <-> exists l r, s = l ++ pat ++ r.
Proof.
  induction s as [|a s IH]; simpl; rewrite orb_true_iff, startswith_prefix.
  - split.
    + intros [[k Hk]|]; [|done]. exists [], k. done.
    + intros (l & r & H). left. symmetry in H.
      apply app_eq_nil in H as [_ H]. apply app_eq_nil in H as [-> _].
      apply prefix_nil.
  - rewrite IH. split.
    + intros [[k Hk]|(l & r & ->)]; [by exists [], k | by exists (a :: l), r].
    + intros ([|b l] & r & H); simpl in H.
      * left. by exists r.
      * injection H as -> ->. right. by exists l, r.
Qed.

(** C4. [_is_valid_url text] is true exactly when [text] starts with
    "http://" or "https://" and one of the six allow-listed domains
    occurs in it, at any position (so also inside a query string).  The
    validator is a function of [text] alone: it reads and changes
    nothing. *)
Theorem is_valid_url_iff (text : str) :
  _is_valid_url text = true <->
  (Py.lit "http://" `prefix_of` text \/ Py.lit "https://" `prefix_of` text) /\
  exists domain, domain ∈ SUPPORTED_DOMAINS /\ exists l r, text = l ++ domain ++ r.
Proof.
  unfold _is_valid_url. rewrite andb_true_iff, !existsb_exists.
  split.
  - intros [(pre & Hpre & Hs) (dom & Hdom & Hc)]. split.
    + apply startswith_prefix in Hs.
      destruct Hpre as [<-|[<-|[]]]; [by left | by right].
    + exists dom. split; [by apply list_elem_of_In | by apply contains_infix].
  - intros [Hs (dom & Hdom & Hc)]. split.
    + destruct Hs as [Hs|Hs]; eexists; (split; [|apply startswith_prefix, Hs]);
        simpl; auto.
    + exists dom. split; [by apply list_elem_of_In | by apply contains_infix].
Qed.

Example valid_vimeo : _is_valid_url (Py.lit "https://vimeo.com/12345") = true.
Proof. reflexivity. Qed.

Example valid_in_query :
  _is_valid_url (Py.lit "http://example.org/watch?from=tiktok.com") = true.
Proof. reflexivity. Qed.

Example invalid_no_scheme : _is_valid_url (Py.lit "vimeo.com/12345") = false.
Proof. reflexivity. Qed.

Example invalid_other_site : _is_valid_url (Py.lit "https://example.org/v") = false.
Proof. reflexivity. Qed.

(* ===================================================================== *)
(** ** Running the exception constructs                                   *)
(* ===================================================================== *)

Arguments Py.lit : simpl never.
Arguments Py.strip : simpl never.
Arguments Py.path_join : simpl never.
Arguments busy_msg : simpl never.
Arguments invalid_msg : simpl never.
Arguments downloading_msg : simpl never.
Arguments error_msg : simpl never.
Arguments _is_valid_url : simpl never.
Arguments MAX_FILE_SIZE : simpl never.

Section Runs.
Context {X : Type} (E : externals X).
Implicit Types (w : World X) (u : Z).

Lemma interp_bind {A B} (f : A -> prog B) (p : prog A) w :
  interp E (bind f p) w =
  let '(r, w1, t1) := interp E p w in
  match r with
  | Return a => let '(r2, w2, t2) := interp E (f a) w1 in (r2, w2, t1 ++ t2)
  | Raise e => (Raise e, w1, t1)
  end.
Proof.
  revert w. induction p as [a|e|ev k IH]; intros w; simpl.
  - by destruct (interp E (f a) w) as [[? ?] ?].
  - done.
  - destruct (handle E ev w) as [r w1]. rewrite IH.
    destruct (interp E (k r) w1) as [[[a|e] w2] t]; [|done].
    by destruct (interp E (f a) w2) as [[? ?] ?].
Qed.

Lemma interp_try_except {A} (p : prog A) (h : exn -> prog A) w :
  interp E (try_except p h) w =
  let '(r, w1, t1) := interp E p w in
  match r with
  | Return a => (Return a, w1, t1)
  | Raise e => let '(r2, w2, t2) := interp E (h e) w1 in (r2, w2, t1 ++ t2)
  end.
Proof.
  revert w. induction p as [a|e|ev k IH]; intros w; simpl.
  - done.
  - by destruct (interp E (h e) w) as [[? ?] ?].
  - destruct (handle E ev w) as [r w1]. rewrite IH.
    destruct (interp E (k r) w1) as [[[a|e] w2] t]; [done|].
    by destruct (interp E (h e) w2) as [[? ?] ?].
Qed.

Lemma interp_try_finally {A} (p : prog A) (f : prog unit) w :
  interp E (try_finally p f) w =
  let '(r, w1, t1) := interp E p w in
  let '(r2, w2, t2) := interp E f w1 in
  (match r2 with Return _ => r | Raise e => Raise e end, w2, t1 ++ t2).
Proof.
  revert w. induction p as [a|e|ev k IH]; intros w; simpl.
  - rewrite interp_bind.
    destruct (interp E f w) as [[[[]|] ?] ?]; simpl; by rewrite ?app_nil_r.
  - rewrite interp_bind.
    destruct (interp E f w) as [[[[]|] ?] ?]; simpl; by rewrite ?app_nil_r.
  - destruct (handle E ev w) as [r w1]. rewrite IH.
    destruct (interp E (k r) w1) as [[? w2] ?].
    by destruct (interp E f w2) as [[? ?] ?].
Qed.

(** Only the three gate operations change [active_downloads]. *)
Lemma handle_active ev w :
  is_gate ev = false ->
  active_downloads (handle E ev w).2 = active_downloads w.
Proof.
  destruct ev; simpl; try done; intros _;
    repeat match goal with
           | |- context [let '(_, _) := ?c in _] => destruct c
           end; done.
Qed.

Lemma gate_free_active {A} (p : prog A) w :
  gate_free p -> active_downloads (after E p w) = active_downloads w.
Proof.
  unfold after. revert w.
  induction p as [a|e|ev k IH]; intros w Hp; simpl; [done..|].
  destruct Hp as [Hev Hk].
  pose proof (handle_active ev w Hev) as Hh.
  destruct (handle E ev w) as [r w1]. specialize (IH r w1 (Hk r)).
  destruct (interp E (k r) w1) as [[? ?] ?]. simpl in *. congruence.
Qed.

End Runs.

(* ===================================================================== *)
(** ** Where the gate is touched                                          *)
(* ===================================================================== *)

Lemma gate_free_Vis {A} ev (k : resp ev -> prog A) :
  is_gate ev = false -> (forall r, gate_free (k r)) -> gate_free (Vis ev k).
Proof. by split. Qed.

Lemma gate_free_bind {A B} (f : A -> prog B) (p : prog A) :
  gate_free p -> (forall a, gate_free (f a)) -> gate_free (bind f p).
Proof.
  induction p as [a|e|ev k IH]; simpl; intros Hp Hf; [done..|].
  destruct Hp as [Hev Hk]. split; auto.
Qed.

Lemma gate_free_try_except {A} (p : prog A) (h : exn -> prog A) :
  gate_free p -> (forall e, gate_free (h e)) -> gate_free (try_except p h).
Proof.
  induction p as [a|e|ev k IH]; simpl; intros Hp Hh; [done..|].
  destruct Hp as [Hev Hk]. split; auto.
Qed.

Lemma gate_free_try_finally {A} (p : prog A) (f : prog unit) :
  gate_free p -> gate_free f -> gate_free (try_finally p f).
Proof.
  induction p as [a|e|ev k IH]; simpl; intros Hp Hf.
  - by apply gate_free_bind.
  - by apply gate_free_bind.
  - destruct Hp as [Hev Hk]. split; auto.
Qed.

Lemma gate_free_lift {A} (r : result A) : gate_free (lift r).
Proof. by destruct r. Qed.

Ltac gate_free_step :=
  lazymatch goal with
  | |- gate_free (mbind _ _) => apply gate_free_bind
  | |- gate_free (bind _ _) => apply gate_free_bind
  | |- gate_free (try_except _ _) => apply gate_free_try_except
  | |- gate_free (try_finally _ _) => apply gate_free_try_finally
  | |- gate_free (if ?b then _ else _) => destruct b
  | |- gate_free (let '(_, _) := ?x in _) => destruct x
  | |- gate_free (Vis _ _) => apply gate_free_Vis; [reflexivity|]
  | |- gate_free (Ret _) => exact I
  | |- gate_free (Throw _) => exact I
  | |- gate_free (lift _) => apply gate_free_lift
  | |- forall _, _ => intro
  end.

Lemma gate_free_send_video chat_id file_path caption :
  gate_free (_send_video chat_id file_path caption).
Proof.
  unfold _send_video, with_open, send_video, logger_error, perform.
  repeat gate_free_step.
Qed.

Lemma gate_free_download_video url temp_dir :
  gate_free (_download_video url temp_dir).
Proof.
  unfold _download_video, extract_info, prepare_filename, path_exists, perform.
  repeat gate_free_step.
Qed.

Lemma gate_free_process_video update url chat_id :
  gate_free (_process_video update url chat_id).
Proof.
  unfold _process_video, with_TemporaryDirectory, _compress_video,
    subprocess_run, getsize, perform.
  repeat first [apply gate_free_download_video | apply gate_free_send_video
               | gate_free_step].
Qed.

(** The named parts are the bodies of the two functions. *)
Lemma process_video_parts update url chat_id :
  _process_video update url chat_id
  = with_TemporaryDirectory (in_temp_dir url chat_id).
Proof. reflexivity. Qed.

Lemma handle_message_parts update :
  handle_message update =
  (busy ← member (effective_user_id update);
   if busy : bool then reply_text (effective_chat_id update) busy_msg
   else if negb (_is_valid_url (Py.strip (message_text update)))
   then reply_text (effective_chat_id update) invalid_msg
   else add (effective_user_id update);;
        try_finally (lifecycle update) (discard (effective_user_id update))).
Proof. reflexivity. Qed.

Lemma gate_free_lifecycle update : gate_free (lifecycle update).
Proof.
  unfold lifecycle, reply_text, logger_error, perform.
  repeat first [apply gate_free_process_video | gate_free_step].
Qed.

(* ===================================================================== *)
(** ** The admission gate                                                 *)
(* ===================================================================== *)

Section Gate.
Context {X : Type} (E : externals X).
Implicit Types (w : World X) (update : Update).

(** A message of a user who is in the set: the membership test, the
    busy reply, and nothing else. *)
Lemma handle_message_busy w update :
  effective_user_id update ∈ active_downloads w ->
  interp E (handle_message update) w =
  let '(r, x) := ext_reply_text E (effective_chat_id update) busy_msg (net w) in
  (r, set_net x w,
   [Member (effective_user_id update);
    ReplyText (effective_chat_id update) busy_msg]).
Proof.
  intros Hin. unfold handle_message. cbn.
  rewrite bool_decide_true by done. cbn.
  destruct (ext_reply_text _ _ _ _) as [[[]|e] x]; done.
Qed.

Lemma busy_run w update :
  effective_user_id update ∈ active_downloads w ->
  events E (handle_message update) w =
    [Member (effective_user_id update);
     ReplyText (effective_chat_id update) busy_msg] /\
  active_downloads (after E (handle_message update) w) = active_downloads w /\
  files (after E (handle_message update) w) = files w.
Proof.
  intros Hin. unfold events, after. rewrite handle_message_busy by done.
  by destruct (ext_reply_text _ _ _ _) as [r x].
Qed.

(** A message that is not a supported URL, from a user who is not in
    the set: the membership test, the reply, and nothing else. *)
Lemma handle_message_invalid w update :
  effective_user_id update ∉ active_downloads w ->
  _is_valid_url (Py.strip (message_text update)) = false ->
  interp E (handle_message update) w =
  let '(r, x) := ext_reply_text E (effective_chat_id update) invalid_msg (net w) in
  (r, set_net x w,
   [Member (effective_user_id update);
    ReplyText (effective_chat_id update) invalid_msg]).
Proof.
  intros Hin Hurl. unfold handle_message. cbn.
  rewrite bool_decide_false by done. rewrite Hurl. cbn.
  destruct (ext_reply_text _ _ _ _) as [[[]|e] x]; done.
Qed.

(** A supported URL from a user who is not in the set: the user is
    added, and the rest is the [try] with its [finally]. *)
Lemma handle_message_admitted w update :
  effective_user_id update ∉ active_downloads w ->
  _is_valid_url (Py.strip (message_text update)) = true ->
  interp E (handle_message update) w =
  let '(r, w', t) :=
    interp E (try_finally (lifecycle update) (discard (effective_user_id update)))
      (set_active ({[effective_user_id update]} ∪ active_downloads w) w) in
  (r, w', Member (effective_user_id update) :: Add (effective_user_id update) :: t).
Proof.
  intros Hin Hurl. rewrite handle_message_parts.
  cbn -[try_finally]. rewrite bool_decide_false by done. rewrite Hurl.
  cbn -[try_finally]. by destruct (interp E _ _) as [[? ?] ?].
Qed.

Lemma lifecycle_first_event w update :
  exists t, events E (lifecycle update) w =
    ReplyText (effective_chat_id update) downloading_msg :: t.
Proof.
  unfold events, lifecycle. cbn.
  destruct (ext_reply_text _ _ _ _) as [r x].
  destruct (interp E _ _) as [[? ?] t]. by exists t.
Qed.

(** However an admitted request ends, its last effect is the discard,
    and the set is what it was before the request. *)
Lemma admitted_run w update :
  effective_user_id update ∉ active_downloads w ->
  _is_valid_url (Py.strip (message_text update)) = true ->
  active_downloads (after E (handle_message update) w) = active_downloads w /\
  exists t,
    events E (handle_message update) w =
    [Member (effective_user_id update); Add (effective_user_id update);
     ReplyText (effective_chat_id update) downloading_msg]
    ++ t ++ [Discard (effective_user_id update)].
Proof.
  intros Hin Hurl. unfold after, events.
  rewrite handle_message_admitted by done. rewrite interp_try_finally.
  set (w1 := set_active _ w).
  pose proof (gate_free_active E _ w1 (gate_free_lifecycle update)) as Hact.
  destruct (lifecycle_first_event w1 update) as [t Ht].
  unfold after in Hact. unfold events in Ht.
  destruct (interp E (lifecycle update) w1) as [[r w2] t2].
  cbn in Hact, Ht. subst t2. cbn. split.
  - rewrite Hact. unfold w1. cbn.
    apply set_eq. intros x.
    rewrite elem_of_difference, elem_of_union, elem_of_singleton.
    split; [by intros [[->|?] ?] | intros ?; split; [by right | congruence]].
  - by exists t.
Qed.

Lemma released w update :
  effective_user_id update ∉ active_downloads w ->
  active_downloads (after E (handle_message update) w) = active_downloads w.
Proof.
  intros Hin.
  destruct (_is_valid_url (Py.strip (message_text update))) eqn:Hurl.
  - by apply admitted_run.
  - unfold after. rewrite handle_message_invalid by done.
    by destruct (ext_reply_text _ _ _ _) as [r x].
Qed.

(** C1. A message from a user who is in the active set gets the busy
    reply and nothing else happens; the set is left as it was.  A
    message from a user who is not in the set leaves the user out of
    the set when its handler ends, whatever the collaborators did and
    however the request ended; if it was admitted, the add is paired
    with a discard as the last effect.  The next supported URL of that
    user is therefore admitted again. *)
Theorem gate_rejects_then_releases w update :
  let user_id := effective_user_id update in
  let chat_id := effective_chat_id update in
  let w' := after E (handle_message update) w in
  (user_id ∈ active_downloads w ->
     events E (handle_message update) w =
       [Member user_id; ReplyText chat_id busy_msg] /\
     active_downloads w' = active_downloads w) /\
  (user_id ∉ active_downloads w ->
     (user_id ∉ active_downloads w') /\
     (_is_valid_url (Py.strip (message_text update)) = true ->
        exists t, events E (handle_message update) w =
          [Member user_id; Add user_id; ReplyText chat_id downloading_msg]
          ++ t ++ [Discard user_id]) /\
     forall next,
       effective_user_id next = user_id ->
       _is_valid_url (Py.strip (message_text next)) = true ->
       exists t, events E (handle_message next) w' =
         [Member user_id; Add user_id;
          ReplyText (effective_chat_id next) downloading_msg]
         ++ t ++ [Discard user_id]).
Proof.
  intros user_id chat_id w'. split.
  - intros Hin. destruct (busy_run w update Hin) as (Ht & Ha & _). done.
  - intros Hout.
    assert (user_id ∉ active_downloads w') as Hout'.
    { unfold w'. by rewrite released. }
    split; [done|]. split.
    + intros Hurl. by apply admitted_run.
    + intros next Hsame Hurl. rewrite <- Hsame in Hout' |- *.
      by apply admitted_run.
Qed.

(** C10. The membership test comes first: for a user who is in the
    active set, any message, a supported URL or not, yields the
    membership test and the busy reply only; there is no
    validation-failure reply and no extraction, and the set and the
    files are untouched. *)
Theorem busy_before_validation w update :
  effective_user_id update ∈ active_downloads w ->
  events E (handle_message update) w =
    [Member (effective_user_id update);
     ReplyText (effective_chat_id update) busy_msg] /\
  active_downloads (after E (handle_message update) w) = active_downloads w /\
  files (after E (handle_message update) w) = files w.
Proof. apply busy_run. Qed.

(** C9. Discarding a user who is not in the active set changes
    nothing: the call returns and the world is the same.  Discarding
    twice is discarding once. *)
Theorem discard_absent_is_noop w u :
  (u ∉ active_downloads w ->
     interp E (discard u) w = (Return tt, w, [Discard u])) /\
  after E (discard u) (after E (discard u) w) = after E (discard u) w.
Proof.
  assert (forall s : gset Z, u ∉ s -> s ∖ {[u]} = s) as Hnoop.
  { intros s Hs. apply set_eq. intros x.
    rewrite elem_of_difference, elem_of_singleton.
    split; [by intros [? _] | intros ?; split; [done | congruence]]. }
  split.
  - intros Hout. cbn. unfold set_active. rewrite Hnoop by done. by destruct w.
  - unfold after. cbn. unfold set_active. cbn. f_equal.
    apply Hnoop. rewrite elem_of_difference, elem_of_singleton. by intros [_ ?].
Qed.

End Gate.

(* ===================================================================== *)
(** ** One admitted request                                               *)
(* ===================================================================== *)

Arguments try_block : simpl never.
Arguments _download_video : simpl never.
Arguments _compress_video : simpl never.
Arguments _send_video : simpl never.

Section Focus.
Context {X : Type} (E : externals X).
Implicit Types (w : World X).

(** The enclosing construct sees of its body only how it ended. *)
Lemma interp_try_except_focus {A} (p : prog A) (h : exn -> prog A) w :
  interp E (try_except p h) w =
  let '(r, w1, t1) := interp E p w in
  let '(r2, w2, t2) := interp E (try_except (lift r) h) w1 in
  (r2, w2, t1 ++ t2).
Proof.
  rewrite interp_try_except. destruct (interp E p w) as [[[a|e] w1] t1]; simpl.
  - by rewrite app_nil_r.
  - done.
Qed.

Lemma interp_try_finally_focus {A} (p : prog A) (f : prog unit) w :
  interp E (try_finally p f) w =
  let '(r, w1, t1) := interp E p w in
  let '(r2, w2, t2) := interp E (try_finally (lift r) f) w1 in
  (r2, w2, t1 ++ t2).
Proof.
  rewrite interp_try_finally. destruct (interp E p w) as [[r w1] t1].
  destruct r as [a|e]; simpl; rewrite interp_bind;
    destruct (interp E f w1) as [[[[]|e'] w2] t2]; simpl; by rewrite ?app_nil_r.
Qed.

End Focus.

Lemma rmtree_gone (d p : str) (fs : FS) :
  inside d p = true -> rmtree d fs !! p = None.
Proof.
  intros Hin. unfold rmtree. apply map_lookup_filter_None. right.
  intros n _. simpl. congruence.
Qed.

Section Adapters.
Context {X : Type} (E : externals X).
Implicit Types (w : World X).

(** Whatever the [except] clauses do, the cleanup has run and nothing
    after it writes a file. *)
Lemma wrap_up_files update temp_dir r w :
  files (after E (wrap_up update temp_dir r) w) = rmtree temp_dir (files w).
Proof.
  unfold after, wrap_up.
  destruct r as [[]|[[] msg]]; cbn;
    try match goal with
        | |- context [ext_reply_text E ?c (error_msg ?e) ?n] =>
            destruct (ext_reply_text E c (error_msg e) n) as [[[]|?] ?]
        end; done.
Qed.

(** After the body of the inner [try] nothing is delivered; and
    unless a failure came out of that body, there is no error reply
    and no failed request in the log. *)
Lemma wrap_up_events update temp_dir r w :
  existsb is_delivery (events E (wrap_up update temp_dir r) w) = false /\
  (forall c, Forall (sends_caption c) (events E (wrap_up update temp_dir r) w)) /\
  ((forall e, r = Raise e -> isinstance_Exception e = false) ->
   existsb is_error_reply (events E (wrap_up update temp_dir r) w) = false /\
   existsb is_failure_log (events E (wrap_up update temp_dir r) w) = false).
Proof.
  unfold events, wrap_up.
  destruct r as [[]|[[] msg]]; cbn;
    try match goal with
        | |- context [ext_reply_text E ?c (error_msg ?e) ?n] =>
            destruct (ext_reply_text E c (error_msg e) n) as [[[]|?] ?]
        end; cbn;
    (split; [done|split; [intros c; by repeat constructor|]]);
    intros H; try done; by specialize (H _ eq_refl).
Qed.

(** The extraction adapter asks the engine, asks for the file name and
    looks whether the file is there; it does nothing else. *)
Lemma download_events url temp_dir w :
  forallb is_extraction (events E (_download_video url temp_dir) w) = true.
Proof.
  unfold events, _download_video. cbn.
  destruct (ext_extract_info _ _ _ _) as [[info|e] o]; [|done]. cbn.
  by destruct (ext_prepare_filename _ _ _) as [p|e].
Qed.

End Adapters.

(** Follow a run through every way its calls can end: split on what
    the next pending call, lookup or test gives. *)
Ltac split_on c :=
  lazymatch c with
  | match ?c' with _ => _ end => split_on c'
  | interp _ _ _ => fail
  | exn_cls ?e => is_var e; destruct e as [[] ?]
  | isinstance_Exception ?e => is_var e; destruct e as [[] ?]
  | isinstance_DownloadError ?e => is_var e; destruct e as [[] ?]
  | is_dir ?n => is_var n; destruct n as [[] ?]
  | _ => destruct c
  end.

Ltac explore_with tac :=
  repeat (cbn; tac;
          match goal with
          | |- context [match ?c with _ => _ end] => split_on c
          | |- context [lift ?r] =>
              lazymatch r with
              | Return _ => fail
              | Raise _ => fail
              | _ => destruct r
              end
          end);
  cbn.

Section Delivery.
Context {X : Type} (E : externals X).
Implicit Types (w : World X).

(** All the ways a call of the delivery adapter can go. *)
Lemma send_video_run chat_id file_path caption w :
  interp E (_send_video chat_id file_path caption) w =
  match files w !! file_path with
  | None =>
      (Return tt, w,
       [Open file_path;
        LogError (Py.lit "Send failed: " ++ exn_str (FileNotFoundError E file_path))])
  | Some n =>
      if is_dir n then
        (Return tt, w,
         [Open file_path;
          LogError (Py.lit "Send failed: " ++ exn_str (IsADirectoryError E file_path))])
      else
        let '(r, x) :=
          ext_send_video E chat_id file_path (take 1024 caption) true (net w) in
        let sent :=
          [Open file_path; SendVideo chat_id file_path (take 1024 caption) true;
           Close file_path] in
        match r with
        | Return _ => (Return tt, set_net x w, sent)
        | Raise e =>
            if isinstance_Exception e
            then (Return tt, set_net x w,
                  sent ++ [LogError (Py.lit "Send failed: " ++ exn_str e)])
            else (Raise e, set_net x w, sent)
        end
  end.
Proof.
  unfold _send_video, with_open, mbind, prog_bind. cbn.
  destruct (files w !! file_path) as [[[] ?]|]; cbn; [done| |done].
  destruct (ext_send_video _ _ _ _ _ _) as [[[]|e] x]; cbn; [done|].
  by destruct (isinstance_Exception e).
Qed.

(** The body of the inner [try] neither replies with an error nor
    logs a failed request, and once the delivery adapter was invoked
    in it, no failure comes out of it. *)
Lemma try_block_delivery url chat_id temp_dir w :
  existsb is_error_reply (events E (try_block url chat_id temp_dir) w) = false /\
  existsb is_failure_log (events E (try_block url chat_id temp_dir) w) = false /\
  (existsb is_delivery (events E (try_block url chat_id temp_dir) w) = true ->
   forall e, outcome E (try_block url chat_id temp_dir) w = Raise e ->
             isinstance_Exception e = false).
Proof.
  unfold events, outcome, try_block, _download_video, _compress_video,
    mbind, prog_bind.
  explore_with ltac:(rewrite ?send_video_run).
  all: repeat split;
    try (vm_compute; reflexivity);
    try (intros Hd; vm_compute in Hd; discriminate);
    try (intros _ ? [= <-]; reflexivity);
    try (intros; discriminate).
Qed.

End Delivery.

Lemma extraction_only (t : list event) :
  forallb is_extraction t = true ->
  existsb is_compression t = false /\ existsb is_delivery t = false /\
  existsb is_error_reply t = false /\ existsb is_failure_log t = false.
Proof.
  induction t as [|ev t IH]; simpl; [done|].
  rewrite andb_true_iff. intros [Hev Ht]. destruct (IH Ht) as (-> & -> & -> & ->).
  by destruct ev.
Qed.

Lemma extraction_sends_nothing (c : str) (t : list event) :
  forallb is_extraction t = true -> Forall (sends_caption c) t.
Proof.
  induction t as [|ev t IH]; simpl; [constructor|].
  rewrite andb_true_iff. intros [Hev Ht]. constructor; [|by apply IH].
  by destruct ev.
Qed.

Section Lifecycle.
Context {X : Type} (E : externals X) (w : World X) (update : Update).

Let user_id := effective_user_id update.
Let chat_id := effective_chat_id update.
Let url := Py.strip (message_text update).

(** The request is admitted, the progress notice goes out and the
    temporary directory is made. *)
Hypothesis gate_open : user_id ∉ active_downloads w.
Hypothesis supported : _is_valid_url url = true.
Variable x1 : X.
Hypothesis notice_sent :
  ext_reply_text E chat_id downloading_msg (net w) = (Return tt, x1).
Variables (temp_dir : str) (o2 : X * FS).
Hypothesis tempdir_made : ext_mkdtemp E (x1, files w) = (Return temp_dir, o2).

(** The world in which the body of the inner [try] starts. *)
Let w2 : World X :=
  {| active_downloads := {[user_id]} ∪ active_downloads w;
     files := o2.2; net := o2.1 |}.

Lemma reach_try_block :
  interp E (handle_message update) w =
  let '(r, w3, t) := interp E (try_block url chat_id temp_dir) w2 in
  let '(r', w', t') := interp E (wrap_up update temp_dir r) w3 in
  (r', w',
   [Member user_id; Add user_id; ReplyText chat_id downloading_msg; Mkdtemp]
   ++ t ++ t').
Proof.
  rewrite handle_message_admitted by done.
  rewrite interp_try_finally_focus. unfold lifecycle.
  rewrite interp_try_except_focus.
  change (_process_video update ?u ?c) with
    (with_TemporaryDirectory (in_temp_dir u c)).
  cbn -[try_finally try_except in_temp_dir].
  fold user_id chat_id url. rewrite notice_sent.
  cbn -[try_finally try_except in_temp_dir]. rewrite tempdir_made.
  cbn -[try_finally try_except in_temp_dir].
  rewrite interp_try_finally_focus. unfold in_temp_dir.
  rewrite interp_try_except_focus.
  change (set_outside o2 _) with w2.
  destruct (interp E (try_block url chat_id temp_dir) w2) as [[r w3] t].
  unfold wrap_up, user_id, chat_id in *.
  destruct r as [[]|[[] msg]]; cbn;
    try match goal with
        | |- context [ext_reply_text E ?c (error_msg ?e) ?n] =>
            destruct (ext_reply_text E c (error_msg e) n) as [[[]|?] ?]
        end; cbn;
    by rewrite ?app_nil_r, <- ?app_assoc.
Qed.

(** What the body of the inner [try] does is part of what the handler
    does. *)
Lemma try_block_in_run (ev : event) :
  ev ∈ events E (try_block url chat_id temp_dir) w2 ->
  ev ∈ events E (handle_message update) w.
Proof.
  unfold events. rewrite reach_try_block.
  destruct (interp E (try_block url chat_id temp_dir) w2) as [[r w3] t].
  destruct (interp E (wrap_up update temp_dir r) w3) as [[r' w'] t'].
  cbn. intros Hev. do 4 apply list_elem_of_further.
  apply elem_of_app. by left.
Qed.

(** C2. Once the temporary directory is made, the request leaves
    neither the directory nor any path below it behind, whatever the
    engine, the transcoder and the transport do and however the
    request ends; the cleanup is among the effects. *)
Theorem temp_dir_removed (p : str) :
  inside temp_dir p = true ->
  files (after E (handle_message update) w) !! p = None /\
  Rmtree temp_dir ∈ events E (handle_message update) w.
Proof.
  intros Hin. unfold after, events. rewrite reach_try_block.
  destruct (interp E (try_block url chat_id temp_dir) w2) as [[r w3] t].
  pose proof (wrap_up_files E update temp_dir r w3) as Hfiles.
  assert (Rmtree temp_dir ∈ events E (wrap_up update temp_dir r) w3) as Hev.
  { unfold events, wrap_up.
    destruct r as [[]|[[] msg]]; cbn;
      try match goal with
          | |- context [ext_reply_text E ?c (error_msg ?e) ?n] =>
              destruct (ext_reply_text E c (error_msg e) n) as [[[]|?] ?]
          end; cbn; apply list_elem_of_In; simpl; auto. }
  unfold after, events in Hfiles, Hev.
  destruct (interp E (wrap_up update temp_dir r) w3) as [[r' w'] t'].
  cbn in *. split.
  - rewrite Hfiles. by apply rmtree_gone.
  - do 4 apply list_elem_of_further.
    apply elem_of_app. by right.
Qed.

Section Extracted.
(** The extraction adapter returns a title and a path. *)
Variables (title file_path : str) (w3 : World X) (t3 : list event).
Hypothesis extracted :
  interp E (_download_video url temp_dir) w2 = (Return (title, file_path), w3, t3).

Lemma t3_extraction : forallb is_extraction t3 = true.
Proof.
  pose proof (download_events E url temp_dir w2) as H.
  unfold events in H. by rewrite extracted in H.
Qed.

(** C7. When the extracted file is at most 50 MiB, the transcoder is
    never started, and what is opened and handed to the transport
    is the path the extraction adapter returned.  After the send
    the only thing that may follow before the cleanup is the log
    entry of a failed send. *)
Theorem small_file_sent_as_is (size : N) :
  files w3 !! file_path = Some {| is_dir := false; st_size := size |} ->
  size <= MAX_FILE_SIZE ->
  existsb is_compression (events E (handle_message update) w) = false /\
  exists tail,
    (tail = [] \/ exists e, tail = [LogError (Py.lit "Send failed: " ++ exn_str e)]) /\
    events E (handle_message update) w =
    [Member user_id; Add user_id; ReplyText chat_id downloading_msg; Mkdtemp]
    ++ t3
    ++ [Getsize file_path; Open file_path;
        SendVideo chat_id file_path (take 1024 title) true; Close file_path]
    ++ tail ++ [Rmtree temp_dir; Discard user_id].
Proof.
  intros Hfile Hsmall. apply N.ltb_ge in Hsmall.
  unfold events. rewrite reach_try_block.
  unfold try_block, mbind, prog_bind. rewrite interp_bind, extracted.
  cbn. rewrite Hfile. cbn. rewrite Hsmall. cbn.
  unfold _send_video, with_open, mbind, prog_bind. cbn. rewrite Hfile. cbn.
  destruct (extraction_only t3 t3_extraction) as (Hnc & _).
  unfold wrap_up.
  destruct (ext_send_video _ _ _ _ _ _) as [[[]|e] x]; cbn.
  - split; [by rewrite !existsb_app, Hnc|].
    exists []. split; [by left|]. by rewrite <- ?app_assoc.
  - destruct (isinstance_Exception e) eqn:He; cbn.
    + split; [by rewrite !existsb_app, Hnc|].
      exists [LogError (Py.lit "Send failed: " ++ exn_str e)].
      split; [right; by exists e|]. by rewrite <- ?app_assoc.
    + destruct e as [[] msg]; try discriminate He. cbn.
      split; [by rewrite !existsb_app, Hnc|].
      exists []. split; [by left|]. by rewrite <- ?app_assoc.
Qed.

(** C3. When the extracted file exceeds 50 MiB, the transcoder
    returns, and the compressed file still exceeds 50 MiB, the
    request fails with "Even after compression, the video is too
    large.": that is logged and is the error reply, after the
    cleanup, and the file is never opened nor handed to the
    transport. *)
Theorem too_large_after_compression (n n' : node) (w4 : World X) (t4 : list event) :
  let compressed_path := Py.path_join temp_dir (Py.lit "compressed.mp4") in
  files w3 !! file_path = Some n ->
  MAX_FILE_SIZE < st_size n ->
  interp E (_compress_video file_path compressed_path) w3 = (Return tt, w4, t4) ->
  files w4 !! compressed_path = Some n' ->
  MAX_FILE_SIZE < st_size n' ->
  existsb is_delivery (events E (handle_message update) w) = false /\
  existsb is_failure_log (events E (handle_message update) w) = true /\
  events E (handle_message update) w =
    [Member user_id; Add user_id; ReplyText chat_id downloading_msg; Mkdtemp]
    ++ t3 ++ [Getsize file_path] ++ t4
    ++ [Getsize compressed_path; Rmtree temp_dir;
        LogError (Py.lit "Download error: " ++ exn_str too_large);
        ReplyText chat_id (error_msg too_large);
        Discard user_id].
Proof.
  intros cpath Hfile Hbig Hrun Hfile' Hbig'.
  apply N.ltb_lt in Hbig, Hbig'.
  assert (t4 = [Run
    [ Py.lit "ffmpeg"; Py.lit "-i"; file_path;
      Py.lit "-vf"; Py.lit "scale=-2:720";
      Py.lit "-c:v"; Py.lit "libx264"; Py.lit "-preset"; Py.lit "fast";
      Py.lit "-crf"; Py.lit "28";
      Py.lit "-c:a"; Py.lit "aac"; Py.lit "-b:a"; Py.lit "96k";
      Py.lit "-movflags"; Py.lit "+faststart"; cpath ]]) as Ht4.
  { unfold _compress_video in Hrun. cbn in Hrun.
    destruct (ext_subprocess_run _ _ _) as [[[]|?] ?]; cbn in Hrun; congruence. }
  unfold events. rewrite reach_try_block.
  unfold try_block, mbind, prog_bind. rewrite interp_bind, extracted.
  cbn. rewrite Hfile. cbn. rewrite Hbig. cbn -[_compress_video].
  rewrite interp_bind. rewrite interp_bind.
  fold cpath. rewrite Hrun. cbn. rewrite Hfile'. cbn. rewrite Hbig'. cbn.
  destruct (extraction_only t3 t3_extraction) as (_ & Hnd & _ & Hnl).
  unfold wrap_up. cbn.
  destruct (ext_reply_text _ _ (error_msg too_large) _) as [[[]|?] ?]; cbn;
    (split; [|split]);
    rewrite <- ?app_assoc, ?existsb_app, ?Hnd, ?Hnl; try done;
    subst t4; cbn; by rewrite ?orb_true_r.
Qed.

Lemma try_block_captions :
  Forall (sends_caption (take 1024 title))
    (events E (try_block url chat_id temp_dir) w2).
Proof.
  pose proof (extraction_sends_nothing (take 1024 title) t3 t3_extraction) as Ht3.
  unfold events, try_block, _compress_video, mbind, prog_bind.
  rewrite interp_bind, extracted.
  explore_with ltac:(rewrite ?send_video_run).
  all: rewrite ?Forall_app; repeat split; try apply Ht3; by repeat constructor.
Qed.

(** An event that stands in a trace written out. *)
Ltac find_event :=
  repeat first [ apply list_elem_of_here
               | apply list_elem_of_further
               | apply elem_of_app; right ].

(** A file of at most 50 MiB that the extraction left is handed to the
    transport, with the title cut to 1024 code points. *)
Lemma try_block_sends_extracted (size : N) :
  files w3 !! file_path = Some {| is_dir := false; st_size := size |} ->
  size <= MAX_FILE_SIZE ->
  SendVideo chat_id file_path (take 1024 title) true
    ∈ events E (try_block url chat_id temp_dir) w2.
Proof.
  intros Hfile Hsmall. apply N.ltb_ge in Hsmall.
  unfold events, try_block, mbind, prog_bind. rewrite interp_bind, extracted.
  cbn. rewrite Hfile. cbn. rewrite Hsmall. cbn.
  rewrite send_video_run, Hfile. cbn.
  destruct (ext_send_video _ _ _ _ _ _) as [[[]|e] x]; cbn;
    [|destruct (isinstance_Exception e); cbn];
    find_event.
Qed.

(** So is the compressed file, when the extracted one was larger and
    the transcoder brought it to at most 50 MiB. *)
Lemma try_block_sends_compressed (n : node) (size' : N) (w4 : World X) (t4 : list event) :
  let compressed_path := Py.path_join temp_dir (Py.lit "compressed.mp4") in
  files w3 !! file_path = Some n ->
  MAX_FILE_SIZE < st_size n ->
  interp E (_compress_video file_path compressed_path) w3 = (Return tt, w4, t4) ->
  files w4 !! compressed_path = Some {| is_dir := false; st_size := size' |} ->
  size' <= MAX_FILE_SIZE ->
  SendVideo chat_id compressed_path (take 1024 title) true
    ∈ events E (try_block url chat_id temp_dir) w2.
Proof.
  intros cpath Hfile Hbig Hrun Hfile' Hsmall.
  apply N.ltb_lt in Hbig. apply N.ltb_ge in Hsmall.
  unfold events, try_block, mbind, prog_bind. rewrite interp_bind, extracted.
  cbn. rewrite Hfile. cbn. rewrite Hbig. cbn -[_compress_video].
  rewrite interp_bind. rewrite interp_bind.
  fold cpath. rewrite Hrun. cbn. rewrite Hfile'. cbn. rewrite Hsmall. cbn.
  rewrite send_video_run, Hfile'. cbn.
  destruct (ext_send_video _ _ _ _ _ _) as [[[]|e] x]; cbn;
    [|destruct (isinstance_Exception e); cbn];
    find_event.
Qed.

(** C8. In a request whose extraction returned [title], the caption
    handed to the transport is [title[:1024]]: at most 1024 code
    points, and [title] itself when it has no more than 1024.  Every
    send of the request carries it, and a send there is: of the
    extracted file when it has at most 50 MiB, and of the compressed
    file when the extracted one was larger and the compressed one has
    at most 50 MiB. *)
Theorem caption_is_truncated_title :
  Forall (sends_caption (take 1024 title)) (events E (handle_message update) w) /\
  (length (take 1024 title) <= 1024)%nat /\
  ((length title <= 1024)%nat -> take 1024 title = title) /\
  (forall size,
     files w3 !! file_path = Some {| is_dir := false; st_size := size |} ->
     size <= MAX_FILE_SIZE ->
     SendVideo chat_id file_path (take 1024 title) true
       ∈ events E (handle_message update) w) /\
  (forall (n : node) (size' : N) (w4 : World X) (t4 : list event),
     let compressed_path := Py.path_join temp_dir (Py.lit "compressed.mp4") in
     files w3 !! file_path = Some n ->
     MAX_FILE_SIZE < st_size n ->
     interp E (_compress_video file_path compressed_path) w3 = (Return tt, w4, t4) ->
     files w4 !! compressed_path = Some {| is_dir := false; st_size := size' |} ->
     size' <= MAX_FILE_SIZE ->
     SendVideo chat_id compressed_path (take 1024 title) true
       ∈ events E (handle_message update) w).
Proof.
  split; [|split; [|split; [|split]]].
  - unfold events. rewrite reach_try_block.
    pose proof try_block_captions as Hb. unfold events in Hb.
    destruct (interp E (try_block url chat_id temp_dir) w2) as [[r w3'] t].
    destruct (wrap_up_events E update temp_dir r w3') as (_ & Hw & _).
    specialize (Hw (take 1024 title)). unfold events in Hw.
    destruct (interp E (wrap_up update temp_dir r) w3') as [[r' w'] t'].
    cbn in *. repeat (constructor; [done|]).
    apply Forall_app. by split.
  - rewrite length_take. lia.
  - apply take_ge.
  - intros size Hfile Hsmall. apply try_block_in_run.
    by eapply try_block_sends_extracted.
  - intros n size' w4 t4 cpath Hfile Hbig Hrun Hfile' Hsmall.
    apply try_block_in_run. by eapply try_block_sends_compressed.
Qed.

End Extracted.

(** C5, as the code does it.  When the extraction adapter raises a
    [DownloadError], whatever its message, the request fails with the
    fixed text "Failed to download. URL might be invalid.": that text
    is logged and is the error reply, after the cleanup, so what the
    user is told does not depend on the message of the engine's
    exception. *)
Theorem download_error_replaced (e : exn) (w3 : World X) (t3 : list event) :
  interp E (_download_video url temp_dir) w2 = (Raise e, w3, t3) ->
  isinstance_DownloadError e = true ->
  events E (handle_message update) w =
    [Member user_id; Add user_id; ReplyText chat_id downloading_msg; Mkdtemp]
    ++ t3
    ++ [Rmtree temp_dir;
        LogError (Py.lit "Download error: "
                  ++ Py.lit "Failed to download. URL might be invalid.");
        ReplyText chat_id
          (10060 :: Py.lit " Error: "
                 ++ Py.lit "Failed to download. URL might be invalid.");
        Discard user_id].
Proof.
  intros Hfail He. unfold events. rewrite reach_try_block.
  unfold try_block, mbind, prog_bind. rewrite interp_bind, Hfail.
  unfold wrap_up. cbn. rewrite He. cbn.
  destruct (ext_reply_text _ _ (error_msg download_failed) _) as [[[]|?] ?]; cbn;
    by rewrite <- ?app_assoc.
Qed.

End Lifecycle.

(* ===================================================================== *)
(** ** A failed delivery                                                  *)
(* ===================================================================== *)

Section Swallowed.
Context {X : Type} (E : externals X).
Implicit Types (w : World X) (update : Update).

(** A request in which the delivery adapter was invoked does not fail
    for the user: no error reply, no "Download error" in the log. *)
Lemma delivered_not_failed update w :
  existsb is_delivery (events E (handle_message update) w) = true ->
  existsb is_error_reply (events E (handle_message update) w) = false /\
  existsb is_failure_log (events E (handle_message update) w) = false.
Proof.
  destruct (decide (effective_user_id update ∈ active_downloads w)) as [Hin|Hout].
  { destruct (busy_run E w update Hin) as (-> & _). discriminate. }
  destruct (_is_valid_url (Py.strip (message_text update))) eqn:Hurl.
  2:{ unfold events. rewrite handle_message_invalid by done.
      destruct (ext_reply_text _ _ _ _) as [r x]. discriminate. }
  destruct (ext_reply_text E (effective_chat_id update) downloading_msg (net w))
    as [[[]|e] x1] eqn:Hnotice.
  2:{ unfold events. rewrite handle_message_admitted by done.
      unfold lifecycle. cbn. rewrite Hnotice.
      explore_with idtac; discriminate. }
  destruct (ext_mkdtemp E (x1, files w)) as [[temp_dir|e] o2] eqn:Htemp.
  2:{ unfold events. rewrite handle_message_admitted by done.
      unfold lifecycle, _process_video, with_TemporaryDirectory. cbn.
      rewrite Hnotice. cbn. rewrite Htemp.
      explore_with idtac; discriminate. }
  unfold events.
  rewrite (reach_try_block E w update Hout Hurl x1 Hnotice temp_dir o2 Htemp).
  match goal with
  | |- context [interp E (try_block ?u ?c ?d) ?w2] =>
      pose proof (try_block_delivery E u c d w2) as (Hr & Hl & Hd);
      unfold events, outcome in Hr, Hl, Hd;
      destruct (interp E (try_block u c d) w2) as [[r w3] t]
  end.
  destruct (wrap_up_events E update temp_dir r w3) as (Hnd & _ & Hok).
  unfold events in Hnd, Hok.
  destruct (interp E (wrap_up update temp_dir r) w3) as [[r' w'] t'].
  cbn in *. rewrite !existsb_app, Hnd, orb_false_r, Hr, Hl. cbn.
  intros Ht. apply Hok. intros e ->. by apply Hd.
Qed.

(** C6. No failure comes out of the delivery adapter: an exception
    derived from [Exception] that [open] or the send raises is logged
    as "Send failed: ..." and the adapter returns.  A request in which
    the adapter was invoked therefore never ends with an error reply
    or a failed request in the log. *)
Theorem delivery_failure_swallowed chat_id file_path caption w update w0 :
  (forall e, outcome E (_send_video chat_id file_path caption) w = Raise e ->
             isinstance_Exception e = false) /\
  (forall e, (handle E (Open file_path) w).1 = Raise e ->
     interp E (_send_video chat_id file_path caption) w =
     (Return tt, w,
      [Open file_path; LogError (Py.lit "Send failed: " ++ exn_str e)])) /\
  (forall e x,
     (handle E (Open file_path) w).1 = Return tt ->
     ext_send_video E chat_id file_path (take 1024 caption) true (net w)
       = (Raise e, x) ->
     isinstance_Exception e = true ->
     interp E (_send_video chat_id file_path caption) w =
     (Return tt, set_net x w,
      [Open file_path; SendVideo chat_id file_path (take 1024 caption) true;
       Close file_path; LogError (Py.lit "Send failed: " ++ exn_str e)])) /\
  (existsb is_delivery (events E (handle_message update) w0) = true ->
   existsb is_error_reply (events E (handle_message update) w0) = false /\
   existsb is_failure_log (events E (handle_message update) w0) = false).
Proof.
  split; [|split; [|split]].
  - unfold outcome. rewrite send_video_run.
    destruct (files w !! file_path) as [[[] ?]|]; cbn; try done.
    destruct (ext_send_video _ _ _ _ _ _) as [[[]|e'] x]; cbn; [done|].
    destruct (isinstance_Exception e') eqn:He; cbn; [done|congruence].
  - intros e. rewrite send_video_run. cbn.
    destruct (files w !! file_path) as [[[] ?]|]; cbn; try done;
      by intros [= <-].
  - intros e x. rewrite send_video_run. cbn.
    destruct (files w !! file_path) as [[[] ?]|]; cbn; try done.
    by intros _ -> ->.
  - apply delivered_not_failed.
Qed.

End Swallowed.

(* ===================================================================== *)
(** ** The gate under interleaving                                        *)
(* ===================================================================== *)

Lemma resp_inhabited (ev : event) : inhabited (resp ev).
Proof.
  destruct ev; constructor; simpl;
    first [exact true | exact tt | exact (Raise (Exn ValueError []))].
Qed.

Lemma in_flight_not_gate_free (u : Z) (p : prog unit) :
  in_flight u p -> ~ gate_free p.
Proof.
  intros [_ (q & Hq & ->)].
  induction q as [a|e|ev k IH]; simpl.
  - by intros [? _].
  - by intros [? _].
  - destruct Hq as [_ Hk]. intros [_ Hf].
    destruct (resp_inhabited ev) as [r]. by apply (IH r).
Qed.

Lemma holds_gate_snoc ts update (p : prog unit) i u :
  holds_gate (ts ++ [(update, p)]) i u <->
  holds_gate ts i u \/
  (i = length ts /\ effective_user_id update = u /\ in_flight u p).
Proof.
  unfold holds_gate. split.
  - intros (upd & q & Hl & Hu & Hf).
    apply lookup_snoc_Some in Hl as [[_ Hl]|[-> [= <- <-]]]; [left|right]; eauto.
  - intros [(upd & q & Hl & Hu)|(-> & Hu & Hf)].
    + exists upd, q. split; [by apply lookup_app_l_Some | done].
    + exists update, p. split; [|done]. apply lookup_snoc_Some. by right.
Qed.

Lemma holds_gate_insert ts i update (p p' : prog unit) j u :
  ts !! i = Some (update, p) ->
  holds_gate (<[i := (update, p')]> ts) j u <->
  (j <> i /\ holds_gate ts j u) \/
  (j = i /\ effective_user_id update = u /\ in_flight u p').
Proof.
  intros Hi. unfold holds_gate. split.
  - intros (upd & q & Hl & Hu & Hf).
    apply list_lookup_insert_Some in Hl as [(-> & [= <- <-] & _)|[Hne Hl]].
    + by right.
    + left. split; [done|]. eauto.
  - intros [(Hne & upd & q & Hl & Hu)|(-> & Hu & Hf)].
    + exists upd, q. split; [|done]. by rewrite list_lookup_insert_ne.
    + exists update, p'. split; [|done].
      apply list_lookup_insert_eq. by eapply lookup_lt_Some.
Qed.

Section Mutex.
Context {X : Type} (E : externals X).
Implicit Types (w : World X) (p : prog unit) (u : Z).

Lemma advance_gate_free p w :
  gate_free p ->
  gate_free (advance E p w).1.1 /\
  active_downloads (advance E p w).1.2 = active_downloads w.
Proof.
  revert w. induction p as [a|e|ev k IH]; intros w Hp; simpl; [done..|].
  destruct (is_await ev); [done|]. destruct Hp as [Hev Hk].
  pose proof (handle_active E ev w Hev) as Hh.
  destruct (handle E ev w) as [r w1]. specialize (IH r w1 (Hk r)).
  destruct (advance E (k r) w1) as [[? ?] ?]. simpl in *.
  destruct IH as [? ->]. done.
Qed.

(** A handler inside the [try] either waits again, still in flight, or
    has ended, and then the discard was its last effect. *)
Lemma advance_finally (q : prog unit) u w :
  gate_free q ->
  let '(p', w', _) := advance E (try_finally q (discard u)) w in
  (in_flight u p' /\ active_downloads w' = active_downloads w) \/
  (finished p' /\ active_downloads w' = active_downloads w ∖ {[u]}).
Proof.
  revert w. induction q as [a|e|ev k IH]; intros w Hq; simpl.
  - by right.
  - by right.
  - destruct Hq as [Hev Hk]. destruct (is_await ev) eqn:Haw.
    + left. split; [|done]. split; [done|].
      exists (Vis ev k). by repeat split.
    + pose proof (handle_active E ev w Hev) as Hh.
      destruct (handle E ev w) as [r w1]. specialize (IH r w1 (Hk r)).
      destruct (advance E _ w1) as [[p' w'] t]. simpl in Hh.
      by rewrite Hh in IH.
Qed.

Lemma resume_gate_free p w :
  gate_free p ->
  gate_free (resume E p w).1.1 /\
  active_downloads (resume E p w).1.2 = active_downloads w.
Proof.
  destruct p as [a|e|ev k]; simpl; [done..|]. intros [Hev Hk].
  pose proof (handle_active E ev w Hev) as Hh.
  destruct (handle E ev w) as [r w1].
  destruct (advance_gate_free (k r) w1 (Hk r)) as [Hg Ha].
  destruct (advance E (k r) w1) as [[? ?] ?]. simpl in *. split; congruence.
Qed.

Lemma resume_in_flight p u w :
  in_flight u p ->
  let '(p', w', _) := resume E p w in
  (in_flight u p' /\ active_downloads w' = active_downloads w) \/
  (finished p' /\ active_downloads w' = active_downloads w ∖ {[u]}).
Proof.
  intros [Hs (q & Hq & ->)]. destruct q as [a|e|ev k]; simpl in *; [done..|].
  destruct Hq as [Hev Hk].
  pose proof (handle_active E ev w Hev) as Hh.
  destruct (handle E ev w) as [r w1].
  pose proof (advance_finally (k r) u w1 (Hk r)) as Ha.
  destruct (advance E _ w1) as [[p' w'] t]. simpl in Hh. by rewrite Hh in Ha.
Qed.

(** The loop with a single handler is the run of that handler on its
    own: what it does up to an [await] and what it does from there
    add up to [interp]. *)
Lemma advance_interp p w :
  let '(p', w', t) := advance E p w in
  interp E p w = let '(r, w'', t') := interp E p' w' in (r, w'', t ++ t').
Proof.
  revert w. induction p as [a|e|ev k IH]; intros w; simpl; [done..|].
  destruct (is_await ev).
  - simpl. destruct (handle E ev w) as [r w1].
    by destruct (interp E (k r) w1) as [[? ?] ?].
  - destruct (handle E ev w) as [r w1]. specialize (IH r w1).
    destruct (advance E (k r) w1) as [[p' w'] t]. rewrite IH.
    by destruct (interp E p' w') as [[? ?] ?].
Qed.

Lemma resume_interp p w :
  let '(p', w', t) := resume E p w in
  interp E p w = let '(r, w'', t') := interp E p' w' in (r, w'', t ++ t').
Proof.
  destruct p as [a|e|ev k]; simpl; [done..|].
  destruct (handle E ev w) as [r w1].
  pose proof (advance_interp (k r) w1) as Ha.
  destruct (advance E (k r) w1) as [[p' w'] t]. rewrite Ha.
  by destruct (interp E p' w') as [[? ?] ?].
Qed.

(** A new message: rejected or not a supported URL, and its handler is
    done with the set; or admitted, and its handler is in flight. *)
Lemma arrive_cases update w :
  let u := effective_user_id update in
  let '(p, w', _) := advance E (handle_message update) w in
  (gate_free p /\ active_downloads w' = active_downloads w) \/
  ((u ∉ active_downloads w) /\ in_flight u p /\
   active_downloads w' = {[u]} ∪ active_downloads w).
Proof.
  unfold handle_message. cbn.
  destruct (decide (effective_user_id update ∈ active_downloads w)) as [Hin|Hout].
  - rewrite bool_decide_true by done. cbn. left. split; [|done].
    split; [done|]. intros r. apply gate_free_lift.
  - rewrite bool_decide_false by done.
    destruct (_is_valid_url _); cbn.
    + right. split; [done|]. split; [|done]. split; [done|].
      exists (lifecycle update). split; [apply gate_free_lifecycle|done].
    + left. split; [|done]. split; [done|]. intros r. apply gate_free_lift.
Qed.

Lemma sched_invariant (c c' : config) :
  sched E c c' -> gate_invariant c -> gate_invariant c'.
Proof.
  intros Hstep (Htasks & Hset & Huniq).
  destruct Hstep as [w ts h update p w' t Hadv|w ts h i update p p' w' t Hi Hsusp Hres];
    cbn [tasks world history] in *.
  - (* a message arrives *)
    pose proof (arrive_cases update w) as Hcases. rewrite Hadv in Hcases.
    destruct Hcases as [[Hfree Hact]|(Hout & Hfl & Hact)].
    + assert (forall j u, holds_gate (ts ++ [(update, p)]) j u <-> holds_gate ts j u)
        as Hsame.
      { intros j u. rewrite holds_gate_snoc. split; [|by left].
        intros [?|(_ & _ & Hf)]; [done|]. by destruct (in_flight_not_gate_free _ _ Hf). }
      split; [|split]; cbn [tasks world history].
      * intros j upd q Hl.
        apply lookup_snoc_Some in Hl as [[_ Hl]|[_ [= <- <-]]]; [eauto|by left].
      * intros u. rewrite Hact, Hset. by setoid_rewrite Hsame.
      * intros j1 j2 u. rewrite !Hsame. apply Huniq.
    + split; [|split]; cbn [tasks world history].
      * intros j upd q Hl.
        apply lookup_snoc_Some in Hl as [[_ Hl]|[_ [= <- <-]]]; [eauto|by right].
      * intros u. rewrite Hact, elem_of_union, elem_of_singleton, Hset.
        setoid_rewrite holds_gate_snoc. split.
        -- intros [->|[j Hj]]; [exists (length ts); by right | exists j; by left].
        -- intros [j [Hj|(_ & <- & _)]]; [right; by exists j | by left].
      * intros j1 j2 u. rewrite !holds_gate_snoc.
        intros [H1|(-> & Hu1 & _)] [H2|(-> & Hu2 & _)]; [by eapply Huniq| | |done].
        -- subst u. destruct Hout. apply Hset. by exists j1.
        -- subst u. destruct Hout. apply Hset. by exists j2.
  - (* a handler goes on *)
    destruct (Htasks i update p Hi) as [Hfree|Hfl].
    + destruct (resume_gate_free p w Hfree) as [Hfree' Hact].
      rewrite Hres in Hfree', Hact. simpl in Hfree', Hact.
      assert (forall j u,
                holds_gate (<[i := (update, p')]> ts) j u <-> holds_gate ts j u)
        as Hsame.
      { intros j u. rewrite (holds_gate_insert ts i update p p' j u Hi). split.
        - intros [[_ ?]|(_ & _ & Hf)]; [done|].
          by destruct (in_flight_not_gate_free _ _ Hf).
        - intros Hj. left. split; [|done]. intros ->.
          destruct Hj as (upd & q & Hl & _ & Hf). rewrite Hi in Hl.
          injection Hl as <- <-. by destruct (in_flight_not_gate_free _ _ Hf). }
      split; [|split]; cbn [tasks world history].
      * intros j upd q Hl.
        apply list_lookup_insert_Some in Hl as [(_ & [= <- <-] & _)|[_ Hl]];
          [by left|eauto].
      * intros u. rewrite Hact, Hset. by setoid_rewrite Hsame.
      * intros j1 j2 u. rewrite !Hsame. apply Huniq.
    + pose proof (resume_in_flight p (effective_user_id update) w Hfl) as Hcases.
      rewrite Hres in Hcases.
      assert (holds_gate ts i (effective_user_id update)) as Hholder.
      { by exists update, p. }
      destruct Hcases as [[Hfl' Hact]|[Hfin Hact]].
      * assert (forall j u,
                  holds_gate (<[i := (update, p')]> ts) j u <-> holds_gate ts j u)
          as Hsame.
        { intros j u. rewrite (holds_gate_insert ts i update p p' j u Hi). split.
          - intros [[_ ?]|(-> & <- & _)]; done.
          - intros Hj. destruct (decide (j = i)) as [->|Hne]; [right|by left].
            destruct Hj as (upd & q & Hl & Hu & _). rewrite Hi in Hl.
            injection Hl as <- <-. by subst u. }
        split; [|split]; cbn [tasks world history].
        -- intros j upd q Hl.
           apply list_lookup_insert_Some in Hl as [(_ & [= <- <-] & _)|[_ Hl]];
             [by right|eauto].
        -- intros u. rewrite Hact, Hset. by setoid_rewrite Hsame.
        -- intros j1 j2 u. rewrite !Hsame. apply Huniq.
      * assert (forall j u,
                  holds_gate (<[i := (update, p')]> ts) j u <->
                  holds_gate ts j u /\ u <> effective_user_id update)
          as Hrest.
        { intros j u. rewrite (holds_gate_insert ts i update p p' j u Hi). split.
          - intros [[Hne Hj]|(_ & _ & [Hs _])]; [|by destruct p'].
            split; [done|]. intros ->. by destruct Hne; eapply Huniq.
          - intros [Hj Hu]. left. split; [|done]. intros ->.
            destruct Hj as (upd & q & Hl & Hu' & _). rewrite Hi in Hl.
            injection Hl as <- <-. done. }
        split; [|split]; cbn [tasks world history].
        -- intros j upd q Hl.
           apply list_lookup_insert_Some in Hl as [(_ & [= <- <-] & _)|[_ Hl]];
             [left; by destruct p'|eauto].
        -- intros u. rewrite Hact, elem_of_difference, elem_of_singleton, Hset.
           setoid_rewrite Hrest. split.
           ++ intros [[j Hj] Hu]. by exists j.
           ++ intros [j [Hj Hu]]. split; [by exists j|done].
        -- intros j1 j2 u. rewrite !Hrest. intros [H1 _] [H2 _]. by eapply Huniq.
Qed.

(** The invariant holds before any message, and along every run. *)
Lemma gate_invariant_start (w0 : World X) :
  active_downloads w0 = ∅ ->
  gate_invariant {| world := w0; tasks := []; history := [] |}.
Proof.
  intros Hempty. split; [|split]; simpl.
  - intros i update p Hl. by rewrite lookup_nil in Hl.
  - intros u. rewrite Hempty. split; [by intros ?%not_elem_of_empty|].
    intros [i (upd & p & Hl & _)]. by rewrite lookup_nil in Hl.
  - intros i j u (upd & p & Hl & _). by rewrite lookup_nil in Hl.
Qed.

Lemma gate_invariant_run (c c' : config) :
  gate_invariant c -> rtc (sched E) c c' -> gate_invariant c'.
Proof.
  intros Hc Hrun. induction Hrun as [|c1 c2 c3 Hstep _ IH]; [done|].
  apply IH. by eapply sched_invariant.
Qed.

(** X18. In every state the loop can reach, the set holds exactly the
    users with a request in flight, and no user has two. *)
Theorem one_request_per_user (c : config) :
  reachable E c -> gate_invariant c.
Proof.
  intros (w0 & Hempty & Hrun).
  eapply gate_invariant_run; [by apply gate_invariant_start|done].
Qed.


(** X20. When a request in flight ends, its user is out of the set. *)
Theorem end_of_request_releases p u w :
  in_flight u p ->
  finished (resume E p w).1.1 ->
  u ∉ active_downloads (resume E p w).1.2.
Proof.
  intros Hfl Hfin. pose proof (resume_in_flight p u w Hfl) as Hcases.
  destruct (resume E p w) as [[p' w'] t]. simpl in *.
  destruct Hcases as [[[Hs _] _]|[_ ->]].
  - by destruct p'.
  - rewrite elem_of_difference, elem_of_singleton. by intros [_ ?].
Qed.

End Mutex.

(* ===================================================================== *)
(** ** The theorems at work on the concrete world                         *)
(* ===================================================================== *)

Module Examples.
Import Demo.

(** The same user writes twice while the first clip is being fetched:
    the second handler runs between two awaits of the first, gets the
    busy reply, and the first request goes on to the end. *)
Example second_message_rejected :
  exists c,
    reachable (env (Some (30 * MiB)) 0 true) c /\
    filter (fun ev => is_gate ev || is_await ev = true) (history c) =
      [ Member 7; Add 7; Member 7; ReplyText 70 busy_msg;
        ReplyText 70 downloading_msg;
        SendVideo 70 clip (Py.lit "Test Clip") true; Discard 7 ] /\
    active_downloads (world c) = ∅.
Proof.
  eexists. split; [|split].
  - exists idle. split; [reflexivity|].
    eapply rtc_l; [eapply (sched_arrive _ _ _ _ vimeo); vm_compute; reflexivity|].
    eapply rtc_l; [eapply (sched_arrive _ _ _ _ vimeo); vm_compute; reflexivity|].
    eapply rtc_l;
      [eapply (sched_resume _ _ _ _ 1%nat);
       [reflexivity | reflexivity | vm_compute; reflexivity]|].
    eapply rtc_l;
      [eapply (sched_resume _ _ _ _ 0%nat);
       [reflexivity | reflexivity | vm_compute; reflexivity]|].
    eapply rtc_l;
      [eapply (sched_resume _ _ _ _ 0%nat);
       [reflexivity | reflexivity | vm_compute; reflexivity]|].
    apply rtc_refl.
  - vm_compute. reflexivity.
  - vm_compute. reflexivity.
Qed.

(** The end-to-end scenario: a 30 MiB clip titled "Test Clip". *)
Example thirty_MiB_clip :
  events (env (Some (30 * MiB)) 0 true) (handle_message vimeo) idle =
  [ Member 7; Add 7; ReplyText 70 downloading_msg; Mkdtemp ]
  ++ events (env (Some (30 * MiB)) 0 true)
       (_download_video (Py.lit "https://vimeo.com/12345") tmp) started
  ++ [ Getsize clip; Open clip;
       SendVideo 70 clip (Py.lit "Test Clip") true; Close clip;
       Rmtree tmp; Discard 7 ].
Proof. vm_compute. reflexivity. Qed.

Example not_a_url :
  events (env None 0 true) (handle_message (msg "not a url")) idle =
  [ Member 7; ReplyText 70 invalid_msg ].
Proof. vm_compute. reflexivity. Qed.

Example error_text_too_large :
  error_msg too_large
  = 10060 :: Py.lit " Error: Even after compression, the video is too large.".
Proof. reflexivity. Qed.

Lemma gate_rejects_then_releases_witness :
  events (env None 0 true) (handle_message (msg "not a url")) (busy 7)
    = [Member 7; ReplyText 70 busy_msg] /\
  7%Z ∉ active_downloads
          (after (env (Some (30 * MiB)) 0 true) (handle_message vimeo) idle).
Proof.
  split.
  - apply (proj1 (gate_rejects_then_releases (env None 0 true) (busy 7)
                    (msg "not a url"))).
    apply elem_of_singleton. reflexivity.
  - apply (proj2 (gate_rejects_then_releases (env (Some (30 * MiB)) 0 true)
                    idle vimeo)).
    apply not_elem_of_empty.
Defined.

Lemma busy_before_validation_witness :
  events (env None 0 true) (handle_message (msg "not a url")) (busy 7)
    = [Member 7; ReplyText 70 busy_msg].
Proof.
  apply (busy_before_validation (env None 0 true) (busy 7) (msg "not a url")).
  apply elem_of_singleton. reflexivity.
Defined.

Lemma discard_absent_is_noop_witness :
  interp (env None 0 true) (discard 7) idle = (Return tt, idle, [Discard 7]).
Proof.
  apply (proj1 (discard_absent_is_noop (env None 0 true) idle 7)).
  apply not_elem_of_empty.
Defined.

Lemma temp_dir_removed_witness :
  files (after (env (Some (30 * MiB)) 0 true) (handle_message vimeo) idle)
    !! clip = None.
Proof.
  refine (proj1 (temp_dir_removed (env (Some (30 * MiB)) 0 true) idle vimeo
                   _ _ tt _ tmp made _ clip _)).
  - apply not_elem_of_empty.
  - vm_compute. reflexivity.
  - reflexivity.
  - reflexivity.
  - vm_compute. reflexivity.
Defined.

Lemma small_file_sent_as_is_witness :
  existsb is_compression
    (events (env (Some (30 * MiB)) 0 true) (handle_message vimeo) idle) = false.
Proof.
  eapply proj1,
    (small_file_sent_as_is (env (Some (30 * MiB)) 0 true) idle vimeo)
    with (x1 := tt) (temp_dir := tmp) (o2 := made) (size := 30 * MiB).
  - apply not_elem_of_empty.
  - vm_compute. reflexivity.
  - reflexivity.
  - reflexivity.
  - vm_compute. reflexivity.
  - vm_compute. reflexivity.
  - vm_compute. discriminate.
Defined.

Lemma too_large_after_compression_witness :
  existsb is_delivery
    (events (env (Some (60 * MiB)) (55 * MiB) true) (handle_message vimeo) idle)
  = false.
Proof.
  eapply proj1,
    (too_large_after_compression (env (Some (60 * MiB)) (55 * MiB) true)
       idle vimeo)
    with (x1 := tt) (temp_dir := tmp) (o2 := made)
         (n := {| is_dir := false; st_size := 60 * MiB |})
         (n' := {| is_dir := false; st_size := 55 * MiB |}).
  - apply not_elem_of_empty.
  - vm_compute. reflexivity.
  - reflexivity.
  - reflexivity.
  - vm_compute. reflexivity.
  - vm_compute. reflexivity.
  - vm_compute. reflexivity.
  - vm_compute. reflexivity.
  - vm_compute. reflexivity.
  - vm_compute. reflexivity.
Defined.

Lemma caption_is_truncated_title_witness :
  Forall (sends_caption (take 1024 (Py.lit "Test Clip")))
    (events (env (Some (30 * MiB)) 0 true) (handle_message vimeo) idle) /\
  SendVideo 70 clip (Py.lit "Test Clip") true
    ∈ events (env (Some (30 * MiB)) 0 true) (handle_message vimeo) idle.
Proof.
  pose proof
    (fun w3 t3 =>
       caption_is_truncated_title (env (Some (30 * MiB)) 0 true) idle vimeo
         (not_elem_of_empty 7%Z) eq_refl tt eq_refl tmp made eq_refl
         (Py.lit "Test Clip") clip w3 t3) as H.
  specialize (H _ _ eq_refl) as (Hall & _ & _ & Hsend & _).
  split; [exact Hall|]. apply (Hsend (30 * MiB)); vm_compute; [reflexivity|discriminate].
Defined.

Lemma download_error_replaced_witness :
  events (env None 0 true) (handle_message vimeo) idle =
  [ Member 7; Add 7; ReplyText 70 downloading_msg; Mkdtemp ]
  ++ events (env None 0 true)
       (_download_video (Py.lit "https://vimeo.com/12345") tmp) started
  ++ [ Rmtree tmp;
       LogError (Py.lit "Download error: "
                 ++ Py.lit "Failed to download. URL might be invalid.");
       ReplyText 70
         (10060 :: Py.lit " Error: "
                ++ Py.lit "Failed to download. URL might be invalid.");
       Discard 7 ].
Proof.
  eapply (download_error_replaced (env None 0 true) idle vimeo)
    with (x1 := tt) (temp_dir := tmp) (o2 := made).
  - apply not_elem_of_empty.
  - vm_compute. reflexivity.
  - reflexivity.
  - reflexivity.
  - vm_compute. reflexivity.
  - reflexivity.
Defined.

(** The transport times out on the send of the 30 MiB clip: the user
    gets no error reply. *)
Lemma delivery_failure_swallowed_witness :
  existsb is_error_reply
    (events (env (Some (30 * MiB)) 0 false) (handle_message vimeo) idle) = false /\
  existsb is_failure_log
    (events (env (Some (30 * MiB)) 0 false) (handle_message vimeo) idle) = false.
Proof.
  apply (proj2 (proj2 (proj2
    (delivery_failure_swallowed (env (Some (30 * MiB)) 0 false)
       70 clip (Py.lit "Test Clip") idle vimeo idle)))).
  vm_compute. reflexivity.
Defined.

Example send_failure_logged :
  filter (fun ev => is_delivery ev = false)
    (events (env (Some (30 * MiB)) 0 false) (handle_message vimeo) idle) =
  [ Member 7; Add 7; ReplyText 70 downloading_msg; Mkdtemp ]
  ++ events (env (Some (30 * MiB)) 0 false)
       (_download_video (Py.lit "https://vimeo.com/12345") tmp) started
  ++ [ Getsize clip;
       LogError (Py.lit "Send failed: " ++ Py.lit "Timed out");
       Rmtree tmp; Discard 7 ].
Proof. vm_compute. reflexivity. Qed.

(** C5 as the spec states it fails: the engine raises a
    [DownloadError] whose message is "ERROR: Unsupported URL", and no
    reply of the request contains that message. *)
Lemma cause_not_surfaced :
  outcome (env None 0 true)
    (_download_video (Py.lit "https://vimeo.com/12345") tmp) started
    = Raise (Exn DownloadError cause) /\
  cause_surfaced cause
    (events (env None 0 true) (handle_message vimeo) idle) = false /\
  existsb is_error_reply
    (events (env None 0 true) (handle_message vimeo) idle) = true.
Proof. vm_compute. auto. Qed.

End Examples.

(* ===================================================================== *)
(** ** The handler as a whole                                             *)
(* ===================================================================== *)

Section Handler.
Context {X : Type} (E : externals X).
Implicit Types (w : World X) (update : Update).

(** X1. A handler that has run to its end leaves [active_downloads]
    exactly as it found it, for every user: the busy and the
    unsupported branches do not touch it, and an admitted request
    removes what it added. *)
Theorem handler_leaves_set_unchanged w update :
  active_downloads (after E (handle_message update) w) = active_downloads w.
Proof.
  destruct (decide (effective_user_id update ∈ active_downloads w)) as [Hin|Hout].
  - by destruct (busy_run E w update Hin) as (_ & ? & _).
  - by apply released.
Qed.

(** X2. A text that is no supported URL, from a user who is not in the
    set, gets the one reply asking for a valid URL: the user is never
    added, nothing is extracted, the files are untouched, and the
    handler ends as that reply ends. *)
Theorem unsupported_text_only_replied w update :
  effective_user_id update ∉ active_downloads w ->
  _is_valid_url (Py.strip (message_text update)) = false ->
  events E (handle_message update) w =
    [Member (effective_user_id update);
     ReplyText (effective_chat_id update) invalid_msg] /\
  outcome E (handle_message update) w =
    (ext_reply_text E (effective_chat_id update) invalid_msg (net w)).1 /\
  files (after E (handle_message update) w) = files w.
Proof.
  intros Hout Hurl. unfold events, outcome, after.
  rewrite handle_message_invalid by done.
  by destruct (ext_reply_text _ _ _ _) as [r x].
Qed.

End Handler.

(* ===================================================================== *)
(** ** Text around the URL                                                *)
(* ===================================================================== *)

Lemma lstrip_spaces_app (l s : str) :
  forallb Py.isspace l = true -> Py.lstrip (l ++ s) = Py.lstrip s.
Proof.
  induction l as [|c l IH]; [done|]. simpl. rewrite andb_true_iff.
  intros [-> Hl]. by apply IH.
Qed.

Lemma lstrip_app (s r : str) :
  Py.lstrip s <> [] -> Py.lstrip (s ++ r) = Py.lstrip s ++ r.
Proof.
  induction s as [|c s IH]; [done|]. simpl.
  destruct (Py.isspace c); [apply IH|done].
Qed.

Lemma lstrip_nil_spaces (s : str) :
  Py.lstrip s = [] -> forallb Py.isspace s = true.
Proof.
  induction s as [|c s IH]; [done|]. simpl.
  destruct (Py.isspace c); [apply IH|done].
Qed.

Lemma forallb_reverse {A} (f : A -> bool) (l : list A) :
  forallb f (reverse l) = forallb f l.
Proof.
  induction l as [|a l IH]; [done|].
  rewrite reverse_cons, forallb_app, IH. simpl. rewrite andb_true_r.
  apply andb_comm.
Qed.

Lemma strip_padded (l s r : str) :
  forallb Py.isspace l = true ->
  forallb Py.isspace r = true ->
  Py.strip (l ++ s ++ r) = Py.strip s.
Proof.
  intros Hl Hr. unfold Py.strip. rewrite lstrip_spaces_app by done.
  destruct (Py.lstrip s) as [|c s1] eqn:Hs.
  - apply lstrip_nil_spaces in Hs.
    rewrite <- (app_nil_r (s ++ r)), lstrip_spaces_app; [done|].
    by rewrite forallb_app, Hs, Hr.
  - rewrite lstrip_app by congruence. rewrite Hs.
    rewrite reverse_app, lstrip_spaces_app; [done|].
    by rewrite forallb_reverse.
Qed.

(** X3. The handler reads the text stripped: whitespace before and
    after the text changes nothing of what the handler does. *)
Theorem padding_is_ignored (update : Update) (l r : str) :
  forallb Py.isspace l = true ->
  forallb Py.isspace r = true ->
  handle_message (with_text update (l ++ message_text update ++ r))
  = handle_message update.
Proof.
  intros Hl Hr. unfold handle_message, with_text. simpl.
  by rewrite strip_padded.
Qed.

(** X4. Whatever follows a supported URL, the text stays supported. *)
Theorem valid_url_extends (text more : str) :
  _is_valid_url text = true -> _is_valid_url (text ++ more) = true.
Proof.
  unfold _is_valid_url. rewrite !andb_true_iff, !existsb_exists.
  intros [(pre & Hin & Hs) (dom & Hdom & Hc)]. split.
  - exists pre. split; [done|]. apply startswith_prefix.
    apply prefix_app_r. by apply startswith_prefix.
  - exists dom. split; [done|]. apply contains_infix.
    apply contains_infix in Hc as (l & r & ->).
    exists l, (r ++ more). by rewrite <- !app_assoc.
Qed.

(* ===================================================================== *)
(** ** More ways an admitted request can go                               *)
(* ===================================================================== *)

Section Paths.
Context {X : Type} (E : externals X) (w : World X) (update : Update).

Let user_id := effective_user_id update.
Let chat_id := effective_chat_id update.
Let url := Py.strip (message_text update).

Hypothesis gate_open : user_id ∉ active_downloads w.
Hypothesis supported : _is_valid_url url = true.

(** X5. When the progress notice cannot be sent, nothing is fetched: no
    temporary directory is made and the engine is not asked.  A failure
    of the notice is logged and answered with an error reply; an
    exception that is no [Exception] goes through, with no reply.  The
    user is discarded either way. *)
Theorem notice_failure_stops_request (e : exn) (x1 : X) :
  ext_reply_text E chat_id downloading_msg (net w) = (Raise e, x1) ->
  (isinstance_Exception e = true ->
   events E (handle_message update) w =
     [Member user_id; Add user_id; ReplyText chat_id downloading_msg;
      LogError (Py.lit "Download error: " ++ exn_str e);
      ReplyText chat_id (error_msg e); Discard user_id]) /\
  (isinstance_Exception e = false ->
   events E (handle_message update) w =
     [Member user_id; Add user_id; ReplyText chat_id downloading_msg;
      Discard user_id] /\
   outcome E (handle_message update) w = Raise e).
Proof.
  intros Hnotice. unfold events, outcome.
  rewrite handle_message_admitted by done. unfold lifecycle. cbn.
  fold user_id chat_id. rewrite Hnotice. cbn. split; intros He; rewrite He; cbn.
  - by destruct (ext_reply_text _ _ (error_msg e) _) as [[[]|?] ?].
  - done.
Qed.

Section TempDir.
Variable x1 : X.
Hypothesis notice_sent :
  ext_reply_text E chat_id downloading_msg (net w) = (Return tt, x1).
Variables (temp_dir : str) (o2 : X * FS).
Hypothesis tempdir_made : ext_mkdtemp E (x1, files w) = (Return temp_dir, o2).

Let w2 : World X :=
  {| active_downloads := {[user_id]} ∪ active_downloads w;
     files := o2.2; net := o2.1 |}.

(** X6. A failure that comes out of the body of the [try] in
    [_process_video] and is no [DownloadError] (the transcoder exiting
    with an error, the extracted file missing) reaches the user with
    its own text: after the cleanup it is logged and sent as the error
    reply, and the handler ends as that reply ends. *)
Theorem failure_text_reaches_user (e : exn) (w3 : World X) (t : list event) :
  interp E (try_block url chat_id temp_dir) w2 = (Raise e, w3, t) ->
  isinstance_Exception e = true ->
  isinstance_DownloadError e = false ->
  events E (handle_message update) w =
    [Member user_id; Add user_id; ReplyText chat_id downloading_msg; Mkdtemp]
    ++ t
    ++ [Rmtree temp_dir;
        LogError (Py.lit "Download error: " ++ exn_str e);
        ReplyText chat_id (error_msg e);
        Discard user_id] /\
  outcome E (handle_message update) w =
    (ext_reply_text E chat_id (error_msg e)
       (net (set_files (rmtree temp_dir (files w3)) w3))).1.
Proof.
  intros Hbody He Hd. unfold events, outcome.
  rewrite (reach_try_block E w update gate_open supported x1 notice_sent
             temp_dir o2 tempdir_made).
  fold user_id chat_id url w2. rewrite Hbody.
  unfold wrap_up. cbn. rewrite Hd. cbn. rewrite He. cbn.
  fold chat_id.
  destruct (ext_reply_text _ _ (error_msg e) _) as [[[]|?] ?]; cbn;
    by rewrite <- ?app_assoc.
Qed.

(** X7. An exception that is no [Exception] (a cancellation, an
    interrupt) coming out of that body goes through both [except]
    clauses: the handler raises it, there is no log entry and no error
    reply, and the cleanup and the discard still happen. *)
Theorem cancellation_goes_through (e : exn) (w3 : World X) (t : list event) :
  interp E (try_block url chat_id temp_dir) w2 = (Raise e, w3, t) ->
  isinstance_Exception e = false ->
  events E (handle_message update) w =
    [Member user_id; Add user_id; ReplyText chat_id downloading_msg; Mkdtemp]
    ++ t ++ [Rmtree temp_dir; Discard user_id] /\
  outcome E (handle_message update) w = Raise e.
Proof.
  intros Hbody He. unfold events, outcome.
  rewrite (reach_try_block E w update gate_open supported x1 notice_sent
             temp_dir o2 tempdir_made).
  fold user_id chat_id url w2. rewrite Hbody.
  unfold wrap_up. destruct e as [[] msg]; try discriminate He. cbn.
  by rewrite <- ?app_assoc.
Qed.

Section AfterExtraction.
Variables (title file_path : str) (w3 : World X) (t3 : list event).
Hypothesis extracted :
  interp E (_download_video url temp_dir) w2 = (Return (title, file_path), w3, t3).

(** X8. When the path the extraction adapter returned does not exist,
    the request fails with the text of the [FileNotFoundError] of
    [os.path.getsize]: nothing is compressed or delivered. *)
Theorem missing_file_fails_request :
  files w3 !! file_path = None ->
  events E (handle_message update) w =
    [Member user_id; Add user_id; ReplyText chat_id downloading_msg; Mkdtemp]
    ++ t3
    ++ [Getsize file_path; Rmtree temp_dir;
        LogError (Py.lit "Download error: " ++ ext_strerror E 2 file_path);
        ReplyText chat_id (error_msg (FileNotFoundError E file_path));
        Discard user_id].
Proof.
  intros Hnone. unfold events.
  rewrite (reach_try_block E w update gate_open supported x1 notice_sent
             temp_dir o2 tempdir_made).
  fold user_id chat_id url w2.
  unfold try_block, mbind, prog_bind. rewrite interp_bind, extracted.
  cbn. rewrite Hnone. cbn. unfold wrap_up. cbn. fold chat_id.
  destruct (ext_reply_text _ _ (error_msg _) _) as [[[]|?] ?]; cbn;
    by rewrite <- ?app_assoc.
Qed.

(** X9. When the extracted file exceeds 50 MiB and the transcoder
    brings it to 50 MiB or less, what is opened and handed to the
    transport is "compressed.mp4" in the temporary directory, with the
    title as caption; the extracted file itself is not opened. *)
Theorem compressed_file_is_sent (n : node) (size' : N) (w4 : World X) (t4 : list event) :
  let compressed_path := Py.path_join temp_dir (Py.lit "compressed.mp4") in
  files w3 !! file_path = Some n ->
  MAX_FILE_SIZE < st_size n ->
  interp E (_compress_video file_path compressed_path) w3 = (Return tt, w4, t4) ->
  files w4 !! compressed_path = Some {| is_dir := false; st_size := size' |} ->
  size' <= MAX_FILE_SIZE ->
  exists tail,
    (tail = [] \/ exists e, tail = [LogError (Py.lit "Send failed: " ++ exn_str e)]) /\
    events E (handle_message update) w =
      [Member user_id; Add user_id; ReplyText chat_id downloading_msg; Mkdtemp]
      ++ t3 ++ [Getsize file_path] ++ t4
      ++ [Getsize compressed_path; Open compressed_path;
          SendVideo chat_id compressed_path (take 1024 title) true;
          Close compressed_path]
      ++ tail ++ [Rmtree temp_dir; Discard user_id].
Proof.
  intros cpath Hfile Hbig Hrun Hfile' Hsmall.
  apply N.ltb_lt in Hbig. apply N.ltb_ge in Hsmall.
  unfold events.
  rewrite (reach_try_block E w update gate_open supported x1 notice_sent
             temp_dir o2 tempdir_made).
  fold user_id chat_id url w2.
  unfold try_block, mbind, prog_bind. rewrite interp_bind, extracted.
  cbn. rewrite Hfile. cbn. rewrite Hbig. cbn -[_compress_video].
  rewrite interp_bind. rewrite interp_bind.
  fold cpath. rewrite Hrun. cbn. rewrite Hfile'. cbn. rewrite Hsmall. cbn.
  rewrite send_video_run, Hfile'. cbn. unfold wrap_up.
  destruct (ext_send_video _ _ _ _ _ _) as [[[]|e] x]; cbn.
  - exists []. split; [by left|]. by repeat (rewrite <- app_assoc; simpl).
  - destruct (isinstance_Exception e) eqn:He; cbn.
    + exists [LogError (Py.lit "Send failed: " ++ exn_str e)].
      split; [right; by exists e|]. by repeat (rewrite <- app_assoc; simpl).
    + destruct e as [[] msg]; try discriminate He. cbn.
      exists []. split; [by left|]. by repeat (rewrite <- app_assoc; simpl).
Qed.

End AfterExtraction.
End TempDir.
End Paths.

(* ===================================================================== *)
(** ** Reading the update                                                 *)
(* ===================================================================== *)

Section Reading.
Context {X : Type} (E : externals X).
Implicit Types (w : World X) (update : Update) (u : TelegramUpdate).

Lemma read_update_text_message update :
  read_update (text_message update) = Return update.
Proof. by destruct update. Qed.

(** Only the update of a text message of a user is read to the end. *)
Lemma read_update_returns u update :
  read_update u = Return update -> u = text_message update.
Proof.
  destruct u as [[user|] [chat|] [[text|]|]]; try discriminate.
  by intros [= <-].
Qed.

Lemma read_update_raises u e :
  read_update u = Raise e -> exn_cls e = OtherException "AttributeError".
Proof.
  destruct u as [[user|] [chat|] [[text|]|]]; try discriminate;
    by intros [= <-].
Qed.

Lemma handle_update_text_message update :
  handle_update (text_message update) = handle_message update.
Proof. unfold handle_update. by rewrite read_update_text_message. Qed.

(** Any other update ends the handler before it has done anything. *)
Lemma handle_update_unread u e w :
  read_update u = Raise e -> interp E (handle_update u) w = (Raise e, w, []).
Proof. intros Hu. unfold handle_update. by rewrite Hu. Qed.

Lemma read_update_cases u :
  (exists update, u = text_message update) \/
  (exists e, read_update u = Raise e /\ exn_cls e = OtherException "AttributeError").
Proof.
  destruct (read_update u) as [update|e] eqn:Hu.
  - left. exists update. by apply read_update_returns.
  - right. exists e. split; [done|]. by eapply read_update_raises.
Qed.

End Reading.

(* ===================================================================== *)
(** ** The shape of every run                                             *)
(* ===================================================================== *)

Section Shape.
Context {X : Type} (E : externals X).
Implicit Types (w : World X) (update : Update).

(** The body of the inner [try] performs inner effects only, and sends
    to no chat but the one it was given. *)
Lemma try_block_inner url chat_id temp_dir w :
  forallb is_inner (events E (try_block url chat_id temp_dir) w) = true /\
  Forall (to_chat chat_id) (events E (try_block url chat_id temp_dir) w).
Proof.
  unfold events, try_block, _download_video, _compress_video, mbind, prog_bind.
  explore_with ltac:(rewrite ?send_video_run).
  all: split; [reflexivity | by repeat constructor].
Qed.

(** What runs after that body: the cleanup, then nothing or the log
    entry and the error reply, then the discard. *)
Lemma wrap_up_shape update temp_dir r w :
  exists fail,
    events E (wrap_up update temp_dir r) w =
      Rmtree temp_dir :: fail ++ [Discard (effective_user_id update)] /\
    (fail = [] \/
     exists e, fail = [LogError (Py.lit "Download error: " ++ exn_str e);
                       ReplyText (effective_chat_id update) (error_msg e)]).
Proof.
  unfold events, wrap_up.
  destruct r as [[]|[[] msg]]; cbn;
    try match goal with
        | |- context [ext_reply_text E ?c (error_msg ?e) ?n] =>
            destruct (ext_reply_text E c (error_msg e) n) as [[[]|?] ?]
        end; cbn;
    first [ by exists []; split; [|left]
          | eexists [_; _]; split; [reflexivity|]; right; eexists (Exn _ _);
            reflexivity ].
Qed.

(** All the ways a message can be handled. *)
Lemma request_cases w update :
  let user_id := effective_user_id update in
  let chat_id := effective_chat_id update in
  let t := events E (handle_message update) w in
  t = [Member user_id; ReplyText chat_id busy_msg] \/
  t = [Member user_id; ReplyText chat_id invalid_msg] \/
  exists body fail,
    t = [Member user_id; Add user_id; ReplyText chat_id downloading_msg]
        ++ body ++ fail ++ [Discard user_id] /\
    (fail = [] \/
     exists e, fail = [LogError (Py.lit "Download error: " ++ exn_str e);
                       ReplyText chat_id (error_msg e)]) /\
    (body = [] \/ body = [Mkdtemp] \/
     exists temp_dir w2,
       body = Mkdtemp
              :: events E (try_block (Py.strip (message_text update)) chat_id temp_dir) w2
              ++ [Rmtree temp_dir]).
Proof.
  intros user_id chat_id t. unfold t, user_id, chat_id. clear t user_id chat_id.
  destruct (decide (effective_user_id update ∈ active_downloads w)) as [Hin|Hout].
  { left. by destruct (busy_run E w update Hin) as (-> & _). }
  destruct (_is_valid_url (Py.strip (message_text update))) eqn:Hurl.
  2:{ right. left. unfold events. rewrite handle_message_invalid by done.
      by destruct (ext_reply_text _ _ _ _) as [r x]. }
  right. right.
  destruct (ext_reply_text E (effective_chat_id update) downloading_msg (net w))
    as [[[]|e] x1] eqn:Hnotice.
  2:{ exists []. unfold events. rewrite handle_message_admitted by done.
      unfold lifecycle. cbn. rewrite Hnotice. cbn.
      destruct (isinstance_Exception e) eqn:He; cbn.
      - destruct (ext_reply_text _ _ (error_msg e) _) as [[[]|?] ?]; cbn;
          (eexists [_; _]; split; [reflexivity|]; split; [right; by exists e|by left]).
      - exists []. split; [done|]. split; by left. }
  destruct (ext_mkdtemp E (x1, files w)) as [[temp_dir|e] o2] eqn:Htemp.
  2:{ exists [Mkdtemp]. unfold events. rewrite handle_message_admitted by done.
      unfold lifecycle, _process_video, with_TemporaryDirectory. cbn.
      rewrite Hnotice. cbn. rewrite Htemp. cbn.
      destruct (isinstance_Exception e) eqn:He; cbn.
      - destruct (ext_reply_text _ _ (error_msg e) _) as [[[]|?] ?]; cbn;
          (eexists [_; _]; split; [reflexivity|]; split;
           [right; by exists e|right; by left]).
      - exists []. split; [done|]. split; [by left|right; by left]. }
  unfold events.
  rewrite (reach_try_block E w update Hout Hurl x1 Hnotice temp_dir o2 Htemp).
  match goal with
  | |- context [interp E (try_block ?u ?c ?d) ?w2] =>
      pose (w2' := w2); change w2 with w2';
      assert (events E (try_block u c d) w2' = (interp E (try_block u c d) w2').2)
        as Hev by reflexivity;
      destruct (interp E (try_block u c d) w2') as [[r w3] tb]
  end.
  destruct (wrap_up_shape update temp_dir r w3) as (fail & Hw & Hfail).
  unfold events in Hw.
  destruct (interp E (wrap_up update temp_dir r) w3) as [[r' w'] t']. cbn in *.
  subst t'. exists (Mkdtemp :: tb ++ [Rmtree temp_dir]), fail.
  split; [|split; [done|]].
  - cbn. by repeat (rewrite <- app_assoc; simpl).
  - right. right. exists temp_dir, w2'. unfold events in Hev. by rewrite Hev.
Qed.

Lemma inner_no_reply (t : list event) :
  forallb is_inner t = true -> filter (fun ev => is_reply ev = true) t = [].
Proof.
  induction t as [|ev t IH]; [done|]. intros H. simpl in H.
  apply andb_true_iff in H as [Hev Ht]. rewrite filter_cons.
  destruct (decide (is_reply ev = true)) as [Hr|_]; [by destruct ev|by apply IH].
Qed.

(** X10. Whatever a handler sends, replies and video alike, goes to
    the chat of the update it handles, and it sends at most two
    replies: a first one (busy, unsupported, or the progress notice)
    and, after the notice, at most one error reply. *)
Theorem replies_go_to_the_sender w update :
  Forall (to_chat (effective_chat_id update)) (events E (handle_message update) w) /\
  (length (filter (fun ev => is_reply ev = true)
             (events E (handle_message update) w)) <= 2)%nat.
Proof.
  destruct (request_cases w update) as [->|[->|(body & fail & -> & Hfail & Hbody)]].
  - split; [by repeat constructor|]. vm_compute. lia.
  - split; [by repeat constructor|]. vm_compute. lia.
  - assert (Forall (to_chat (effective_chat_id update)) fail /\
            (length (filter (fun ev => is_reply ev = true) fail) <= 1)%nat)
      as [Hf1 Hf2].
    { destruct Hfail as [->|[e ->]]; (split; [by repeat constructor|vm_compute; lia]). }
    assert (Forall (to_chat (effective_chat_id update)) body /\
            filter (fun ev => is_reply ev = true) body = [])
      as [Hb1 Hb2].
    { destruct Hbody as [->|[->|(d & w2 & ->)]];
        [split; [constructor|done] | split; [by repeat constructor|done] |].
      destruct (try_block_inner (Py.strip (message_text update))
                  (effective_chat_id update) d w2) as [Hin Hto].
      split.
      - constructor; [done|]. apply Forall_app. split; [done|by repeat constructor].
      - rewrite filter_cons_False by done.
        by rewrite filter_app, inner_no_reply. }
    split.
    + repeat (constructor; [done|]).
      repeat (apply Forall_app; split; [done|]). by repeat constructor.
    + rewrite !filter_app, !length_app, Hb2.
      change (length (filter _ [Member _; Add _; ReplyText _ _])) with 1%nat.
      change (length (filter _ [Discard _])) with 0%nat. simpl. lia.
Qed.

(** X11. Every run of [handle_message] has one of four shapes.  On an
    update that is not the text message of a user (no user, no chat,
    no message or no text) reading it raises [AttributeError] and
    nothing is done.  Otherwise acquire and release, and making and
    removing the temporary directory, are bracketed: the run either
    stops at the first reply (busy or unsupported) with no add, or it
    adds the user first and discards the user last; in between, after
    the progress notice, a temporary directory once made is removed
    once, after all the effects of extraction, compression and
    delivery and before any error reply. *)
Theorem request_shape w (u : TelegramUpdate) :
  let t := events E (handle_update u) w in
  (exists e,
     read_update u = Raise e /\ exn_cls e = OtherException "AttributeError" /\
     interp E (handle_update u) w = (Raise e, w, [])) \/
  (exists update,
     u = text_message update /\
     let user_id := effective_user_id update in
     let chat_id := effective_chat_id update in
     (t = [Member user_id; ReplyText chat_id busy_msg] \/
      t = [Member user_id; ReplyText chat_id invalid_msg] \/
      exists body fail,
        t = [Member user_id; Add user_id; ReplyText chat_id downloading_msg]
            ++ body ++ fail ++ [Discard user_id] /\
        (fail = [] \/
         exists e, fail = [LogError (Py.lit "Download error: " ++ exn_str e);
                           ReplyText chat_id (error_msg e)]) /\
        (body = [] \/ body = [Mkdtemp] \/
         exists temp_dir inner,
           body = Mkdtemp :: inner ++ [Rmtree temp_dir] /\
           forallb is_inner inner = true))).
Proof.
  intros t. destruct (read_update_cases u) as [[update ->]|(e & Hu & He)].
  2:{ left. exists e. split; [done|]. split; [done|]. by apply handle_update_unread. }
  right. exists update. split; [done|]. intros user_id chat_id.
  unfold t. rewrite handle_update_text_message.
  destruct (request_cases w update) as [H|[H|(body & fail & H & Hfail & Hbody)]];
    [by left | right; by left | right; right].
  exists body, fail. split; [done|]. split; [done|].
  destruct Hbody as [->|[->|(d & w2 & ->)]]; [by left | right; by left |].
  right. right. exists d, (events E (try_block (Py.strip (message_text update))
                                        (effective_chat_id update) d) w2).
  split; [done|]. apply try_block_inner.
Qed.

End Shape.

(* ===================================================================== *)
(** ** What comes out of the handler                                      *)
(* ===================================================================== *)

Section Boundary.
Context {X : Type} (E : externals X).
Implicit Types (w : World X) (update : Update).

Hypothesis replies_arrive : forall c text x, (ext_reply_text E c text x).1 = Return tt.

Lemma wrap_up_outcome update temp_dir r w e :
  outcome E (wrap_up update temp_dir r) w = Raise e -> isinstance_Exception e = false.
Proof.
  unfold outcome, wrap_up.
  destruct r as [[]|[[] msg]]; cbn; try done;
    try match goal with
        | |- context [ext_reply_text E ?c (error_msg ?e) ?n] =>
            pose proof (replies_arrive c (error_msg e) n) as Hok;
            destruct (ext_reply_text E c (error_msg e) n) as [r x];
            simpl in Hok; subst r
        end; cbn; try done.
  by intros [= <-].
Qed.

(** Of what is raised while the text message of a user is handled,
    nothing that is an [Exception] leaves the handler. *)
Lemma text_message_no_failure w update e :
  outcome E (handle_message update) w = Raise e -> isinstance_Exception e = false.
Proof.
  destruct (decide (effective_user_id update ∈ active_downloads w)) as [Hin|Hout].
  { unfold outcome. rewrite handle_message_busy by done.
    pose proof (replies_arrive (effective_chat_id update) busy_msg (net w)) as Hok.
    destruct (ext_reply_text _ _ _ _) as [r x]. simpl in *. by subst r. }
  destruct (_is_valid_url (Py.strip (message_text update))) eqn:Hurl.
  2:{ unfold outcome. rewrite handle_message_invalid by done.
      pose proof (replies_arrive (effective_chat_id update) invalid_msg (net w)) as Hok.
      destruct (ext_reply_text _ _ _ _) as [r x]. simpl in *. by subst r. }
  pose proof (replies_arrive (effective_chat_id update) downloading_msg (net w))
    as Hnotice.
  destruct (ext_reply_text E (effective_chat_id update) downloading_msg (net w))
    as [r x1] eqn:Hn. simpl in Hnotice. subst r.
  destruct (ext_mkdtemp E (x1, files w)) as [[temp_dir|e'] o2] eqn:Htemp.
  2:{ unfold outcome. rewrite handle_message_admitted by done.
      unfold lifecycle, _process_video, with_TemporaryDirectory. cbn.
      rewrite Hn. cbn. rewrite Htemp. cbn.
      destruct (isinstance_Exception e') eqn:He'; cbn.
      - match goal with
        | |- context [ext_reply_text E ?c (error_msg ?e0) ?n] =>
            pose proof (replies_arrive c (error_msg e0) n) as Hok;
            destruct (ext_reply_text E c (error_msg e0) n) as [r x];
            simpl in Hok; subst r
        end. done.
      - by intros [= <-]. }
  unfold outcome.
  rewrite (reach_try_block E w update Hout Hurl x1 Hn temp_dir o2 Htemp).
  destruct (interp E (try_block _ _ _) _) as [[r w3] tb].
  pose proof (wrap_up_outcome update temp_dir r w3 e) as Hw. unfold outcome in Hw.
  by destruct (interp E (wrap_up update temp_dir r) w3) as [[r' w'] t'].
Qed.

(** X12. As long as the transport delivers the replies, the one
    failure that leaves [handle_message] is the [AttributeError] of
    reading an update that is not the text message of a user, raised
    before anything is done.  For the text message of a user, whatever
    the engine, the file system, the transcoder or the send raise, the
    handler returns, unless what was raised is no [Exception] at all. *)
Theorem no_failure_leaves_handler w (u : TelegramUpdate) e :
  outcome E (handle_update u) w = Raise e ->
  (exists update, u = text_message update /\ isinstance_Exception e = false) \/
  (read_update u = Raise e /\ exn_cls e = OtherException "AttributeError" /\
   events E (handle_update u) w = [] /\ after E (handle_update u) w = w).
Proof.
  destruct (read_update_cases u) as [[update ->]|(e' & Hu & He)].
  - rewrite handle_update_text_message. intros Hout. left. exists update.
    split; [done|]. by eapply text_message_no_failure.
  - unfold outcome, events, after. rewrite (handle_update_unread E u e' w Hu).
    cbn. intros [= <-]. by right.
Qed.

End Boundary.

(* ===================================================================== *)
(** ** The adapters                                                       *)
(* ===================================================================== *)

Section MoreAdapters.
Context {X : Type} (E : externals X).
Implicit Types (w : World X).

(** X13. The delivery adapter opens the file first.  A path that is
    missing or a directory is not handed to the transport: the failure
    of [open] is logged and the adapter returns.  A file that opens is
    closed right after the send, however the send ends, and at most the
    log entry of a failed send follows. *)
Theorem file_closed_after_send chat_id file_path caption w :
  (forall size,
     files w !! file_path = Some {| is_dir := false; st_size := size |} ->
     exists tail,
       events E (_send_video chat_id file_path caption) w =
         [Open file_path;
          SendVideo chat_id file_path (take 1024 caption) true;
          Close file_path] ++ tail /\
       (tail = [] \/ exists msg, tail = [LogError msg])) /\
  (files w !! file_path = None \/
   (exists size, files w !! file_path = Some {| is_dir := true; st_size := size |}) ->
   exists msg,
     interp E (_send_video chat_id file_path caption) w =
       (Return tt, w, [Open file_path; LogError msg])).
Proof.
  unfold events. rewrite send_video_run. split.
  - intros size ->. cbn.
    destruct (ext_send_video _ _ _ _ _ _) as [[[]|e] x]; cbn.
    + exists []. split; [done|by left].
    + destruct (isinstance_Exception e); cbn.
      * eexists [_]. split; [done|]. right. by eexists.
      * exists []. split; [done|by left].
  - intros [->|[size ->]]; cbn; by eexists.
Qed.

Lemma after_first_dot_none (l : str) :
  46 ∉ l -> Py.after_first_dot l = None.
Proof.
  induction l as [|c l IH]; [done|]. intros Hl. simpl.
  destruct (N.eqb_spec c 46) as [->|_].
  - destruct Hl. by left.
  - apply IH. intros ?. apply Hl. by right.
Qed.

Lemma after_first_dot_app (l r : str) :
  46 ∉ l -> Py.after_first_dot (l ++ 46 :: r) = Some r.
Proof.
  induction l as [|c l IH]; [done|]. intros Hl. simpl.
  destruct (N.eqb_spec c 46) as [->|_].
  - destruct Hl. by left.
  - apply IH. intros ?. apply Hl. by right.
Qed.

(** [s.rsplit(".", 1)[0]] is what precedes the last dot of [s], and
    [s] when it has no dot. *)
Lemma rsplit_dot_head_last (stem ext : str) :
  46 ∉ ext -> Py.rsplit_dot_head (stem ++ 46 :: ext) = stem.
Proof.
  intros Hext. unfold Py.rsplit_dot_head.
  rewrite reverse_app, reverse_cons, <- app_assoc. simpl.
  rewrite after_first_dot_app; [by rewrite reverse_involutive|].
  by rewrite elem_of_reverse.
Qed.

Lemma rsplit_dot_head_none (s : str) :
  46 ∉ s -> Py.rsplit_dot_head s = s.
Proof.
  intros Hs. unfold Py.rsplit_dot_head.
  rewrite after_first_dot_none; [done|]. by rewrite elem_of_reverse.
Qed.

(** X14. What the extraction adapter returns once the engine has
    returned: as title the "title" of the info dict, "video" when it
    has none; as path the prepared file name if that file exists, and
    otherwise the name with ".mp4" in place of what follows its last
    dot (appended, when the name has no dot). *)
Theorem download_video_result url temp_dir w (info : info_dict) o (name stem : str) :
  ext_extract_info E url (ydl_opts_of temp_dir) (net w, files w) = (Return info, o) ->
  ext_prepare_filename E (ydl_opts_of temp_dir) info = Return name ->
  (exists ext, name = stem ++ 46 :: ext /\ 46 ∉ ext) \/ (name = stem /\ 46 ∉ stem) ->
  let title := default (Py.lit "video") (info !! "title"%string) in
  (is_Some (o.2 !! name) ->
   outcome E (_download_video url temp_dir) w = Return (title, name)) /\
  (o.2 !! name = None ->
   outcome E (_download_video url temp_dir) w = Return (title, stem ++ Py.lit ".mp4")) /\
  (info !! "title"%string = None -> title = Py.lit "video").
Proof.
  intros Hinfo Hname Hstem title. unfold outcome, _download_video.
  change {| opt_outtmpl := _; opt_format := _; opt_merge_output_format := _;
            opt_quiet := _; opt_no_warnings := _ |} with (ydl_opts_of temp_dir).
  cbn. rewrite Hinfo. cbn. rewrite Hname. cbn. destruct o as [x fs]. cbn.
  split; [|split].
  - intros Hsome. by rewrite bool_decide_true.
  - intros Hnone. rewrite bool_decide_false by (rewrite Hnone; by intros [? ?]).
    cbn. do 2 f_equal.
    destruct Hstem as [(ext & -> & Hext)|[-> Hs]];
      [by rewrite rsplit_dot_head_last | by rewrite rsplit_dot_head_none].
  - unfold title. by intros ->.
Qed.

Lemma path_join_relative (d name : str) :
  (forall r, name <> 47 :: r) -> d <> [] -> last d <> Some 47 ->
  Py.path_join d name = d ++ 47 :: name.
Proof.
  intros Hname Hd Hlast. unfold Py.path_join.
  assert (match last d with
          | Some 47 | None => d ++ name
          | Some _ => d ++ 47 :: name
          end = d ++ 47 :: name) as Hjoin.
  { destruct (last d) as [c|] eqn:Hl.
    - destruct (decide (c = 47)) as [->|Hc]; [done|].
      destruct c as [|p]; [done|].
      repeat (destruct p as [p|p|]; try done).
    - apply last_None in Hl. done. }
  destruct name as [|c r]; [done|].
  destruct (decide (c = 47)) as [->|Hc]; [by destruct (Hname r)|].
  destruct c as [|p]; [done|].
  repeat (destruct p as [p|p|]; try done).
Qed.

Lemma inside_path_join (d name : str) :
  (forall r, name <> 47 :: r) -> d <> [] -> last d <> Some 47 ->
  inside d (Py.path_join d name) = true.
Proof.
  intros Hname Hd Hlast. rewrite path_join_relative by done.
  unfold inside. apply orb_true_iff. right. apply startswith_prefix.
  exists name. by rewrite <- app_assoc.
Qed.

(** X15. The engine and the transcoder are only ever told to write
    below the temporary directory: the body of the [try] starts by
    asking the engine, with the options built from [temp_dir], and the
    output template of every extraction and the output argument of
    every transcoder run lie in it (for a directory name as [mkdtemp]
    gives it: not empty, no trailing slash).  Where the two then write
    is theirs. *)
Theorem adapters_write_below_temp_dir url chat_id temp_dir w :
  temp_dir <> [] -> last temp_dir <> Some 47 ->
  (exists t, events E (try_block url chat_id temp_dir) w =
               ExtractInfo url (ydl_opts_of temp_dir) :: t) /\
  inside temp_dir (opt_outtmpl (ydl_opts_of temp_dir)) = true /\
  Forall (writes_below temp_dir) (events E (try_block url chat_id temp_dir) w).
Proof.
  intros Hd Hlast.
  assert (inside temp_dir (Py.path_join temp_dir (Py.lit "%(title)s.%(ext)s")) = true)
    as Htmpl by (apply inside_path_join; [by intros r|done..]).
  assert (inside temp_dir (Py.path_join temp_dir (Py.lit "compressed.mp4")) = true)
    as Hcomp by (apply inside_path_join; [by intros r|done..]).
  split; [|split; [exact Htmpl|]].
  - unfold events, try_block, _download_video, mbind, prog_bind. cbn.
    destruct (ext_extract_info _ _ _ _) as [r o].
    match goal with
    | |- context [interp E ?p ?w'] => destruct (interp E p w') as [[r' w''] t']
    end.
    by eexists.
  - unfold events, try_block, _download_video, _compress_video, mbind, prog_bind.
    explore_with ltac:(rewrite ?send_video_run).
    all: repeat (constructor;
                 [first [exact I | exact Htmpl
                        | eexists; split; [reflexivity|exact Hcomp]]|]);
      constructor.
Qed.

End MoreAdapters.

(* ===================================================================== *)
(** ** Acquiring the gate between two awaits                              *)
(* ===================================================================== *)

Section Acquire.
Context {X : Type} (E : externals X).
Implicit Types (w : World X) (update : Update).

Lemma advance_admitted w update :
  effective_user_id update ∉ active_downloads w ->
  _is_valid_url (Py.strip (message_text update)) = true ->
  advance E (handle_message update) w =
    (try_finally (lifecycle update) (discard (effective_user_id update)),
     set_active ({[effective_user_id update]} ∪ active_downloads w) w,
     [Member (effective_user_id update); Add (effective_user_id update)]).
Proof.
  intros Hout Hurl. unfold handle_message. cbn.
  rewrite bool_decide_false by done. rewrite Hurl. done.
Qed.

(** X16. Test and add are one step: a supported URL from a user who is
    not in the set has the user added before the handler first waits,
    so no other handler can run between the membership test and the
    add.  The handler then waits at the progress notice, in flight. *)
Theorem acquire_is_atomic w update :
  effective_user_id update ∉ active_downloads w ->
  _is_valid_url (Py.strip (message_text update)) = true ->
  exists p,
    advance E (handle_message update) w =
      (p, set_active ({[effective_user_id update]} ∪ active_downloads w) w,
       [Member (effective_user_id update); Add (effective_user_id update)]) /\
    in_flight (effective_user_id update) p /\
    exists k, p = Vis (ReplyText (effective_chat_id update) downloading_msg) k.
Proof.
  intros Hout Hurl. eexists. split; [by apply advance_admitted|]. split.
  - split; [done|]. exists (lifecycle update). split; [apply gate_free_lifecycle|done].
  - by eexists.
Qed.

(** X17. The gate is per user: in every state the loop can reach, a
    supported URL from a user who has no request in flight is admitted,
    whoever else has one. *)
Theorem gate_is_per_user (c : config) update :
  reachable E c ->
  (forall i, ~ holds_gate (tasks c) i (effective_user_id update)) ->
  _is_valid_url (Py.strip (message_text update)) = true ->
  exists p w',
    advance E (handle_message update) (world c) =
      (p, w', [Member (effective_user_id update); Add (effective_user_id update)]) /\
    in_flight (effective_user_id update) p /\
    active_downloads w' = {[effective_user_id update]} ∪ active_downloads (world c).
Proof.
  intros (w0 & Hempty & Hrun) Hnone Hurl.
  destruct (gate_invariant_run E _ c (gate_invariant_start w0 Hempty) Hrun)
    as (_ & Hset & _).
  assert (effective_user_id update ∉ active_downloads (world c)) as Hout.
  { intros [i Hi]%Hset. by apply (Hnone i). }
  do 2 eexists. split; [by apply advance_admitted|]. split; [|done].
  split; [done|]. exists (lifecycle update). split; [apply gate_free_lifecycle|done].
Qed.

End Acquire.

(* ===================================================================== *)
(** ** The further theorems at work                                       *)
(* ===================================================================== *)

Module MoreExamples.
Import Demo.

Lemma one_in_flight_reachable : reachable (env None 0 true) Scenes.one_in_flight.
Proof.
  exists idle. split; [done|]. apply rtc_once.
  apply (sched_arrive (env None 0 true) idle [] [] vimeo).
  apply advance_admitted; [apply not_elem_of_empty | by vm_compute].
Qed.

Lemma unsupported_text_only_replied_witness :
  events (env None 0 true) (handle_message (msg "not a url")) idle =
    [Member 7; ReplyText 70 invalid_msg].
Proof.
  apply (unsupported_text_only_replied (env None 0 true) idle (msg "not a url")).
  - apply not_elem_of_empty.
  - vm_compute. reflexivity.
Defined.

Lemma padding_is_ignored_witness :
  handle_message (with_text vimeo ([32; 9] ++ message_text vimeo ++ [32; 10]))
  = handle_message vimeo.
Proof.
  apply (padding_is_ignored vimeo [32; 9] [32; 10]); vm_compute; reflexivity.
Defined.

Lemma valid_url_extends_witness :
  _is_valid_url (Py.lit "https://vimeo.com/12345" ++ Py.lit "?autoplay=1") = true.
Proof.
  apply (valid_url_extends (Py.lit "https://vimeo.com/12345")).
  vm_compute. reflexivity.
Defined.

Lemma notice_failure_stops_request_witness :
  events (Faults.no_replies Faults.timed_out) (handle_message vimeo) idle =
    [Member 7; Add 7; ReplyText 70 downloading_msg;
     LogError (Py.lit "Download error: " ++ Py.lit "Timed out");
     ReplyText 70 (error_msg Faults.timed_out); Discard 7].
Proof.
  refine (proj1 (notice_failure_stops_request (Faults.no_replies Faults.timed_out)
                   idle vimeo _ _ Faults.timed_out tt _) _).
  - apply not_elem_of_empty.
  - vm_compute. reflexivity.
  - reflexivity.
  - reflexivity.
Defined.

Lemma failure_text_reaches_user_witness :
  existsb (fun ev =>
             match ev with
             | ReplyText _ text => Py.contains (exn_str Faults.exit_status) text
             | _ => false
             end)
    (events (Faults.no_transcoder (60 * MiB)) (handle_message vimeo) idle) = true.
Proof.
  assert (forall t t',
            events (Faults.no_transcoder (60 * MiB)) (handle_message vimeo) idle
              = t ++ t' ++
                [Rmtree tmp;
                 LogError (Py.lit "Download error: " ++ exn_str Faults.exit_status);
                 ReplyText 70 (error_msg Faults.exit_status); Discard 7] ->
            existsb (fun ev =>
                       match ev with
                       | ReplyText _ text =>
                           Py.contains (exn_str Faults.exit_status) text
                       | _ => false
                       end)
              (events (Faults.no_transcoder (60 * MiB)) (handle_message vimeo) idle)
            = true) as Hshow.
  { intros t t' ->. rewrite !existsb_app. cbn -[Py.contains].
    replace (Py.contains _ _) with true by (vm_compute; reflexivity).
    by rewrite !orb_true_r. }
  eapply Hshow, proj1,
    (failure_text_reaches_user (Faults.no_transcoder (60 * MiB)) idle vimeo)
    with (x1 := tt) (temp_dir := tmp) (o2 := made) (e := Faults.exit_status).
  - apply not_elem_of_empty.
  - vm_compute. reflexivity.
  - reflexivity.
  - reflexivity.
  - vm_compute. reflexivity.
  - reflexivity.
  - reflexivity.
Defined.

Lemma cancellation_goes_through_witness :
  outcome Faults.cancelled_engine (handle_message vimeo) idle = Raise Faults.cancelled.
Proof.
  eapply proj2,
    (cancellation_goes_through Faults.cancelled_engine idle vimeo)
    with (x1 := tt) (temp_dir := tmp) (o2 := made).
  - apply not_elem_of_empty.
  - vm_compute. reflexivity.
  - reflexivity.
  - reflexivity.
  - vm_compute. reflexivity.
  - reflexivity.
Defined.

Lemma missing_file_fails_request_witness :
  events Scenes.lost (handle_message vimeo) idle =
    [Member 7; Add 7; ReplyText 70 downloading_msg; Mkdtemp]
    ++ events Scenes.lost (_download_video (Py.lit "https://vimeo.com/12345") tmp) started
    ++ [Getsize clip; Rmtree tmp;
        LogError (Py.lit "Download error: " ++ ext_strerror Scenes.lost 2 clip);
        ReplyText 70 (error_msg (FileNotFoundError Scenes.lost clip));
        Discard 7].
Proof.
  eapply (missing_file_fails_request Scenes.lost idle vimeo)
    with (x1 := tt) (temp_dir := tmp) (o2 := made).
  - apply not_elem_of_empty.
  - vm_compute. reflexivity.
  - reflexivity.
  - reflexivity.
  - vm_compute. reflexivity.
  - vm_compute. reflexivity.
Defined.

Lemma compressed_file_is_sent_witness :
  exists tail,
    (tail = [] \/ exists e, tail = [LogError (Py.lit "Send failed: " ++ exn_str e)]) /\
    events (env (Some (60 * MiB)) (40 * MiB) true) (handle_message vimeo) idle =
      [Member 7; Add 7; ReplyText 70 downloading_msg; Mkdtemp]
      ++ events (env (Some (60 * MiB)) (40 * MiB) true)
           (_download_video (Py.lit "https://vimeo.com/12345") tmp) started
      ++ [Getsize clip]
      ++ events (env (Some (60 * MiB)) (40 * MiB) true)
           (_compress_video clip (Py.lit "/tmp/t/compressed.mp4"))
           (after (env (Some (60 * MiB)) (40 * MiB) true)
              (_download_video (Py.lit "https://vimeo.com/12345") tmp) started)
      ++ [Getsize (Py.lit "/tmp/t/compressed.mp4");
          Open (Py.lit "/tmp/t/compressed.mp4");
          SendVideo 70 (Py.lit "/tmp/t/compressed.mp4")
            (take 1024 (Py.lit "Test Clip")) true;
          Close (Py.lit "/tmp/t/compressed.mp4")]
      ++ tail ++ [Rmtree tmp; Discard 7].
Proof.
  eapply (compressed_file_is_sent (env (Some (60 * MiB)) (40 * MiB) true) idle vimeo)
    with (x1 := tt) (temp_dir := tmp) (o2 := made)
         (n := {| is_dir := false; st_size := 60 * MiB |}) (size' := 40 * MiB).
  - apply not_elem_of_empty.
  - vm_compute. reflexivity.
  - reflexivity.
  - reflexivity.
  - vm_compute. reflexivity.
  - vm_compute. reflexivity.
  - vm_compute. reflexivity.
  - vm_compute. reflexivity.
  - vm_compute. reflexivity.
  - vm_compute. discriminate.
Defined.

Lemma no_failure_leaves_handler_witness :
  (exists update,
     Scenes.edited = text_message update /\
     isinstance_Exception (no_attribute "text") = false) \/
  (read_update Scenes.edited = Raise (no_attribute "text") /\
   exn_cls (no_attribute "text") = OtherException "AttributeError" /\
   events (env None 0 true) (handle_update Scenes.edited) (busy 7) = [] /\
   after (env None 0 true) (handle_update Scenes.edited) (busy 7) = busy 7).
Proof.
  apply (no_failure_leaves_handler (env None 0 true)).
  - reflexivity.
  - reflexivity.
Defined.

Lemma file_closed_after_send_witness :
  exists tail,
    events (env None 0 true) (_send_video 70 clip (Py.lit "Test Clip")) Scenes.fetched =
      [Open clip; SendVideo 70 clip (take 1024 (Py.lit "Test Clip")) true; Close clip]
      ++ tail /\
    (tail = [] \/ exists msg, tail = [LogError msg]).
Proof.
  apply (proj1 (file_closed_after_send (env None 0 true) 70 clip (Py.lit "Test Clip")
                  Scenes.fetched) 5).
  vm_compute. reflexivity.
Defined.

Lemma download_video_result_witness :
  outcome (Faults.merged 5) (_download_video (Py.lit "https://vimeo.com/12345") tmp)
    started
  = Return (default (Py.lit "video") ((∅ : info_dict) !! "title"%string),
            Py.lit "/tmp/t/Test Clip" ++ Py.lit ".mp4").
Proof.
  refine (proj1 (proj2
    (download_video_result (Faults.merged 5) (Py.lit "https://vimeo.com/12345")
       tmp started ∅
       (tt, <[clip := {| is_dir := false; st_size := 5 |}]> made.2)
       (Py.lit "/tmp/t/Test Clip.webm") (Py.lit "/tmp/t/Test Clip") _ _ _)) _).
  - reflexivity.
  - reflexivity.
  - left. exists (Py.lit "webm"). split; [reflexivity|].
    apply (bool_decide_unpack _). vm_compute. exact I.
  - vm_compute. reflexivity.
Defined.

Lemma adapters_write_below_temp_dir_witness :
  (exists t,
     events (env (Some (60 * MiB)) (40 * MiB) true)
       (try_block (Py.lit "https://vimeo.com/12345") 70 tmp) started =
       ExtractInfo (Py.lit "https://vimeo.com/12345") (ydl_opts_of tmp) :: t) /\
  inside tmp (opt_outtmpl (ydl_opts_of tmp)) = true /\
  Forall (writes_below tmp)
    (events (env (Some (60 * MiB)) (40 * MiB) true)
       (try_block (Py.lit "https://vimeo.com/12345") 70 tmp) started).
Proof.
  apply (adapters_write_below_temp_dir (env (Some (60 * MiB)) (40 * MiB) true)).
  - vm_compute. discriminate.
  - vm_compute. discriminate.
Defined.

Lemma acquire_is_atomic_witness :
  exists p,
    advance (env None 0 true) (handle_message vimeo) idle =
      (p, set_active ({[7%Z]} ∪ ∅) idle, [Member 7; Add 7]) /\
    in_flight 7 p /\
    exists k, p = Vis (ReplyText 70 downloading_msg) k.
Proof.
  apply (acquire_is_atomic (env None 0 true) idle vimeo).
  - apply not_elem_of_empty.
  - vm_compute. reflexivity.
Defined.

Lemma gate_is_per_user_witness :
  exists p w',
    advance (env None 0 true) (handle_message Scenes.other) (world Scenes.one_in_flight) =
      (p, w', [Member 8; Add 8]) /\
    in_flight 8 p /\
    active_downloads w' = {[8%Z]} ∪ active_downloads (world Scenes.one_in_flight).
Proof.
  apply (gate_is_per_user (env None 0 true) Scenes.one_in_flight Scenes.other).
  - apply one_in_flight_reachable.
  - intros i (upd & p & Hl & Hu & _). simpl in Hl.
    apply list_lookup_singleton_Some in Hl as [_ [= <- <-]]. discriminate Hu.
  - vm_compute. reflexivity.
Defined.

Lemma one_request_per_user_witness : gate_invariant Scenes.one_in_flight.
Proof.
  apply (one_request_per_user (env None 0 true)). apply one_in_flight_reachable.
Defined.

Lemma end_of_request_releases_witness :
  7%Z ∉ active_downloads
          (resume (Faults.no_replies Faults.cancelled)
             (try_finally (lifecycle vimeo) (discard 7)) started).1.2.
Proof.
  apply (end_of_request_releases (Faults.no_replies Faults.cancelled)).
  - split; [reflexivity|]. exists (lifecycle vimeo).
    split; [apply gate_free_lifecycle|reflexivity].
  - vm_compute. exact I.
Defined.


End MoreExamples.
